(** * pysim5g: the link-budget pipeline of [system_simulator.py]

    A shallow embedding of [SimulationManager] and of the table shipped in
    [scripts/run_script.py], with the properties of the specification
    stated and settled against it.

    Numbers.  Python floats are idealised:
    - the table lookup of [estimate_spectral_efficiency] only compares
      numbers, so SINR values, thresholds and spectral efficiencies are exact
      rationals ([Q]); a decimal literal of the source is the rational it
      denotes, and the definitions evaluate;
    - the stages that use [sqrt], [10**x] and [log10] are over the real
      numbers ([R]); [round(x, 2)] takes a real to a rational with two
      decimals.
    Overflow, NaN and signed infinities of IEEE arithmetic are outside the
    model.

    Errors.  A Python call either returns a value or raises; [result] below
    is the small error monad the embedding threads through every stage. *)

From Stdlib Require Import QArith ZArith Lia Bool String List.
From Stdlib Require Import Lqa Reals Lra Permutation Sorted.
Import ListNotations.

Set Implicit Arguments.

(* ------------------------------------------------------------------ *)
(** ** Python outcomes *)

Inductive exn : Type :=
| IndexError
| AttributeError
| ZeroDivisionError
| TypeError
| UnboundLocalError.

Inductive result (A : Type) : Type :=
| Ok (a : A)
| Raise (e : exn).

Arguments Ok {A} a.
Arguments Raise {A} e.

Definition bind {A B : Type} (m : result A) (k : A -> result B) : result B :=
  match m with
  | Ok a => k a
  | Raise e => Raise e
  end.

Declare Scope py_scope.
Delimit Scope py_scope with py.
Notation "x <- m ;; k" := (bind m (fun x => k))
  (at level 61, m at next level, right associativity) : py_scope.
Notation "' p <- m ;; k" := (bind m (fun x => let 'p := x in k))
  (at level 61, p pattern, m at next level, right associativity) : py_scope.

(** [l[i]] on a Python list, for a non-negative literal index. *)
Definition index {A : Type} (l : list A) (i : nat) : result A :=
  match nth_error l i with
  | Some a => Ok a
  | None => Raise IndexError
  end.

(** Truth value of a Python string: the empty string is falsy. *)
Definition truthy (s : string) : bool :=
  negb (String.eqb s EmptyString).

(* ------------------------------------------------------------------ *)
(** ** The modulation and coding table *)

(** One 7-tuple of [MODULATION_AND_CODING_LUT]; the projections are named
    after the column comments of [run_script.py], with the tuple index each
    one stands for. *)
Record MCS : Type := mkMCS {
  generation_tag : string;      (* [0] *)
  mimo : string;                (* [1] *)
  cqi_index : Z;                (* [2] *)
  modulation : string;          (* [3] *)
  coding_rate : Z;              (* [4] *)
  spectral_eff : Q;             (* [5] *)
  sinr_estimate : Q             (* [6] *)
}.

Open Scope string_scope.
Open Scope list_scope.
Open Scope Q_scope.

Definition MODULATION_AND_CODING_LUT : list MCS := [
  mkMCS "4G" "1x1" 1 "QPSK" 78 0.1523 (-6.7);
  mkMCS "4G" "1x1" 2 "QPSK" 120 0.2344 (-4.7);
  mkMCS "4G" "1x1" 3 "QPSK" 193 0.377 (-2.3);
  mkMCS "4G" "1x1" 4 "QPSK" 308 0.6016 0.2;
  mkMCS "4G" "1x1" 5 "QPSK" 449 0.877 2.4;
  mkMCS "4G" "1x1" 6 "QPSK" 602 1.1758 4.3;
  mkMCS "4G" "1x1" 7 "16QAM" 378 1.4766 5.9;
  mkMCS "4G" "1x1" 8 "16QAM" 490 1.9141 8.1;
  mkMCS "4G" "1x1" 9 "16QAM" 616 2.4063 10.3;
  mkMCS "4G" "1x1" 10 "64QAM" 466 2.7305 11.7;
  mkMCS "4G" "1x1" 11 "64QAM" 567 3.3223 14.1;
  mkMCS "4G" "1x1" 12 "64QAM" 666 3.9023 16.3;
  mkMCS "4G" "1x1" 13 "64QAM" 772 4.5234 18.7;
  mkMCS "4G" "1x1" 14 "64QAM" 873 5.1152 21;
  mkMCS "4G" "1x1" 15 "64QAM" 948 5.5547 22.7;
  mkMCS "5G" "8x8" 1 "QPSK" 78 0.30 (-6.7);
  mkMCS "5G" "8x8" 2 "QPSK" 193 2.05 (-4.7);
  mkMCS "5G" "8x8" 3 "QPSK" 449 4.42 (-2.3);
  mkMCS "5G" "8x8" 4 "16QAM" 378 6.40 0.2;
  mkMCS "5G" "8x8" 5 "16QAM" 490 8.00 2.4;
  mkMCS "5G" "8x8" 6 "16QAM" 616 10.82 4.3;
  mkMCS "5G" "8x8" 7 "64QAM" 466 12.40 5.9;
  mkMCS "5G" "8x8" 8 "64QAM" 567 16.00 8.1;
  mkMCS "5G" "8x8" 9 "64QAM" 666 19.00 10.3;
  mkMCS "5G" "8x8" 10 "64QAM" 772 22.00 11.7;
  mkMCS "5G" "8x8" 11 "64QAM" 873 28.00 14.1;
  mkMCS "5G" "8x8" 12 "256QAM" 711 32.00 16.3;
  mkMCS "5G" "8x8" 13 "256QAM" 797 38.00 18.7;
  mkMCS "5G" "8x8" 14 "256QAM" 885 44.00 21;
  mkMCS "5G" "8x8" 15 "256QAM" 948 50.00 22.7
].

(** [pairwise]: the sliding window of 2-tuples, [zip(a, b)] with [b] one
    step ahead of [a]. *)
Definition pairwise {A : Type} (iterable : list A) : list (A * A) :=
  combine iterable (tl iterable).

(** [a >= b] and [a < b] on numbers. *)
Definition ge_num (a b : Q) : bool := Qle_bool b a.
Definition lt_num (a b : Q) : bool := negb (Qle_bool b a).

(** The guard [lower[0] and upper[0] == generation]: Python parses it as
    [lower[0] and (upper[0] == generation)], the truth value of the string
    [lower[0]] and a comparison of [upper[0]] only. *)
Definition pair_matches (generation : string) (p : MCS * MCS) : bool :=
  truthy (generation_tag (fst p))
  && String.eqb (generation_tag (snd p)) generation.

(** The body of the [for lower, upper in pairwise(...)] loop, by recursion
    on the pairs still to visit.  Falling off the end of the loop is the
    implicit [return None]: the initial [spectral_efficiency = 0.1] is
    assigned and never returned. *)
Fixpoint scan_pairs (sinr : Q) (generation : string)
    (modulation_and_coding_lut : list MCS) (pairs : list (MCS * MCS))
    : result (option Q) :=
  match pairs with
  | [] => Ok None
  | (lower, upper) :: rest =>
    if pair_matches generation (lower, upper) then
      let lower_sinr := sinr_estimate lower in
      let upper_sinr := sinr_estimate upper in
      if ge_num sinr lower_sinr && lt_num sinr upper_sinr then
        Ok (Some (spectral_eff lower))
      else
        (highest_value_4G <- index modulation_and_coding_lut 14 ;;
         highest_value_5G <- index modulation_and_coding_lut 29 ;;
         if ge_num sinr (sinr_estimate highest_value_4G)
            && String.eqb generation "4G" then
           Ok (Some (spectral_eff highest_value_4G))
         else if ge_num sinr (sinr_estimate highest_value_5G)
                 && String.eqb generation "5G" then
           Ok (Some (spectral_eff highest_value_5G))
         else
           lowest_value <- index modulation_and_coding_lut 0 ;;
           if lt_num sinr (sinr_estimate lowest_value) then
             Ok (Some 0)
           else
             scan_pairs sinr generation modulation_and_coding_lut rest)%py
    else
      scan_pairs sinr generation modulation_and_coding_lut rest
  end.

Definition estimate_spectral_efficiency (sinr : Q) (generation : string)
    (modulation_and_coding_lut : list MCS) : result (option Q) :=
  scan_pairs sinr generation modulation_and_coding_lut
    (pairwise modulation_and_coding_lut).

(** The entries of one generation, in table order. *)
Definition generation_block (generation : string) (lut : list MCS)
    : list MCS :=
  filter (fun e => String.eqb (generation_tag e) generation) lut.


Close Scope Q_scope.

(* ------------------------------------------------------------------ *)
(** ** Entities *)

Open Scope R_scope.

(** The keys of [simulation_parameters] the manager reads. *)
Record SimulationParameters : Type := mkParameters {
  iterations : Z;
  seed_value1 : Z;
  seed_value2 : Z;
  los_breakpoint_m : R;
  tx_macro_baseline_height : R;
  tx_macro_power : R;
  tx_macro_gain : R;
  tx_macro_losses : R;
  tx_micro_baseline_height : R;
  tx_micro_power : R;
  tx_micro_gain : R;
  tx_micro_losses : R;
  building_height : R;
  street_width : R;
  above_roof : Z;
  network_load : R
}.

(** [PARAMETERS] of [run_script.py], restricted to those keys. *)
Definition PARAMETERS : SimulationParameters := {|
  iterations := 1000;
  seed_value1 := 1;
  seed_value2 := 2;
  los_breakpoint_m := 500;
  tx_macro_baseline_height := 30;
  tx_macro_power := 40;
  tx_macro_gain := 16;
  tx_macro_losses := 1;
  tx_micro_baseline_height := 10;
  tx_micro_power := 24;
  tx_micro_gain := 5;
  tx_micro_losses := 1;
  building_height := 5;
  street_width := 20;
  above_roof := 0;
  network_load := 50
|}.

Definition point : Type := (R * R)%type.

(** GeoJSON inputs: [data['properties'][...]] and
    [data['geometry']['coordinates']]. *)
Record SiteFeature : Type := mkSiteFeature {
  site_id : string;
  site_coordinates : point
}.

Record ReceiverFeature : Type := mkReceiverFeature {
  ue_id : string;
  ue_coordinates : point;
  prop_ue_height : R;
  prop_gain : R;
  prop_losses : R;
  prop_misc_losses : R;
  prop_indoor : bool
}.

(** The polygon of a site area enters the pipeline through its planar area
    only ([shape(data['geometry']).area]). *)
Record AreaFeature : Type := mkAreaFeature {
  area_site_id : string;
  polygon_area : R
}.

(** [Transmitter] and [InterferingTransmitter] are two classes with the
    same attributes and the same constructor body; one record stands for
    both, with one constructor function per class.  The four attributes
    assigned under [if ant_type == ...] are absent for any other antenna
    type, hence optional. *)
Record Transmitter : Type := mkTransmitter {
  tx_id : string;
  tx_coordinates : point;
  tx_ant_type : string;
  tx_ant_height : option R;
  tx_power : option R;
  tx_gain : option R;
  tx_losses : option R
}.

Definition Transmitter_init (data : SiteFeature) (ant_type : string)
    (simulation_parameters : SimulationParameters) : Transmitter :=
  let unset := mkTransmitter (site_id data) (site_coordinates data) ant_type
                 None None None None in
  let after_macro :=
    if String.eqb ant_type "macro" then
      mkTransmitter (tx_id unset) (tx_coordinates unset) (tx_ant_type unset)
        (Some (tx_macro_baseline_height simulation_parameters))
        (Some (tx_macro_power simulation_parameters))
        (Some (tx_macro_gain simulation_parameters))
        (Some (tx_macro_losses simulation_parameters))
    else unset in
  if String.eqb ant_type "micro" then
    mkTransmitter (tx_id after_macro) (tx_coordinates after_macro)
      (tx_ant_type after_macro)
      (Some (tx_micro_baseline_height simulation_parameters))
      (Some (tx_micro_power simulation_parameters))
      (Some (tx_micro_gain simulation_parameters))
      (Some (tx_micro_losses simulation_parameters))
  else after_macro.

Definition InterferingTransmitter_init (data : SiteFeature)
    (ant_type : string) (simulation_parameters : SimulationParameters)
    : Transmitter :=
  let unset := mkTransmitter (site_id data) (site_coordinates data) ant_type
                 None None None None in
  let after_macro :=
    if String.eqb ant_type "macro" then
      mkTransmitter (tx_id unset) (tx_coordinates unset) (tx_ant_type unset)
        (Some (tx_macro_baseline_height simulation_parameters))
        (Some (tx_macro_power simulation_parameters))
        (Some (tx_macro_gain simulation_parameters))
        (Some (tx_macro_losses simulation_parameters))
    else unset in
  if String.eqb ant_type "micro" then
    mkTransmitter (tx_id after_macro) (tx_coordinates after_macro)
      (tx_ant_type after_macro)
      (Some (tx_micro_baseline_height simulation_parameters))
      (Some (tx_micro_power simulation_parameters))
      (Some (tx_micro_gain simulation_parameters))
      (Some (tx_micro_losses simulation_parameters))
  else after_macro.

Record Receiver : Type := mkReceiver {
  rx_id : string;
  rx_coordinates : point;
  rx_ue_height : R;
  rx_gain : R;
  rx_losses : R;
  rx_misc_losses : R;
  rx_indoor : bool
}.

Definition Receiver_init (data : ReceiverFeature)
    (simulation_parameters : SimulationParameters) : Receiver :=
  mkReceiver (ue_id data) (ue_coordinates data) (prop_ue_height data)
    (prop_gain data) (prop_losses data) (prop_misc_losses data)
    (prop_indoor data).

Record SiteArea : Type := mkSiteArea {
  sa_id : string;
  sa_area : R
}.

Definition SiteArea_init (data : AreaFeature) : SiteArea :=
  mkSiteArea (area_site_id data) (polygon_area data).

(** Reading an attribute that the constructor may have left unset. *)
Definition attr {A : Type} (a : option A) : result A :=
  match a with
  | Some v => Ok v
  | None => Raise AttributeError
  end.

(** A Python [dict] with string keys: insertion ordered, and [d[k] = v] on
    a key already present replaces the value where the key stands. *)
Definition dict (V : Type) : Type := list (string * V).

Fixpoint setitem {V : Type} (d : dict V) (k : string) (v : V) : dict V :=
  match d with
  | [] => [(k, v)]
  | (k', v') :: d' =>
    if String.eqb k' k then (k', v) :: d' else (k', v') :: setitem d' k v
  end.

Definition values {V : Type} (d : dict V) : list V := map snd d.

Record SimulationManager : Type := mkManager {
  transmitter : Transmitter;
  interfering_transmitters : dict Transmitter;
  receivers : dict Receiver;
  site_area : SiteArea
}.

Definition SimulationManager_init (transmitter : list SiteFeature)
    (interfering_transmitters : list SiteFeature) (ant_type : string)
    (receivers : list ReceiverFeature) (site_area : list AreaFeature)
    (simulation_parameters : SimulationParameters)
    : result SimulationManager :=
  (t0 <- index transmitter 0 ;;
   a0 <- index site_area 0 ;;
   Ok (mkManager
         (Transmitter_init t0 ant_type simulation_parameters)
         (fold_left
            (fun d interfering_transmitter =>
               setitem d (site_id interfering_transmitter)
                 (InterferingTransmitter_init interfering_transmitter
                    ant_type simulation_parameters))
            interfering_transmitters [])
         (fold_left
            (fun d receiver =>
               setitem d (ue_id receiver)
                 (Receiver_init receiver simulation_parameters))
            receivers [])
         (SiteArea_init a0)))%py.

(* ------------------------------------------------------------------ *)
(** ** Numeric primitives *)

(** [LineString([p, q]).length]: the Euclidean length of one segment. *)
Definition LineString_length (p q : point) : R :=
  sqrt ((fst p - fst q) * (fst p - fst q) + (snd p - snd q) * (snd p - snd q)).

(** [np.log10] and [10**x] as functions of real numbers.  The floats of
    the source have edges these do not: [10**x] raises OverflowError for
    an exponent above 308 or so, [np.log10] answers [-inf] at 0 and [nan]
    below it, and each operation rounds. *)
Definition log10 (x : R) : R := ln x / ln 10.
Definition pow10 (x : R) : R := Rpower 10 x.

(** Round to the nearest integer, ties to the even one. *)
Definition rint (x : R) : Z :=
  let f := Int_part x in
  if Rlt_dec (frac_part x) (1 / 2) then f
  else if Rlt_dec (1 / 2) (frac_part x) then (f + 1)%Z
  else if Z.even f then f else (f + 1)%Z.

(** [round(x, 2)]: scale by 100, round, unscale; the result is a decimal
    with two digits. *)
Definition round2 (x : R) : Q := Qmake (rint (x * 100)) 100.

(** [l.sort(reverse=True)] on numbers: a descending insertion sort (equal
    numbers are indistinguishable, so any correct sort gives this list). *)
Fixpoint insert_desc (x : R) (l : list R) : list R :=
  match l with
  | [] => [x]
  | y :: l' => if Rle_dec y x then x :: y :: l' else y :: insert_desc x l'
  end.

Fixpoint sort_reverse (l : list R) : list R :=
  match l with
  | [] => []
  | x :: l' => insert_desc x (sort_reverse l')
  end.

(** The builtin [sum]: a left fold from 0. *)
Definition sum (l : list R) : R := fold_left Rplus l 0.

(** True division [a / b] where both operands are Python numbers: a zero
    divisor raises. *)
Definition truediv (a b : R) : result R :=
  if Req_dec_T b 0 then Raise ZeroDivisionError else Ok (a / b).

(* ------------------------------------------------------------------ *)
(** ** The path-loss collaborator *)

(** The thirteen positional arguments of [path_loss_calculator]. *)
Record PathLossCall : Type := mkCall {
  arg_frequency : R;
  arg_distance : R;
  arg_ant_height : R;
  arg_ant_type : string;
  arg_building_height : R;
  arg_street_width : R;
  arg_environment : string;
  arg_type_of_sight : string;
  arg_ue_height : R;
  arg_above_roof : Z;
  arg_indoor : bool;
  arg_seed_value : Z;
  arg_iterations : Z
}.

(** A result record of [estimate_link_budget]. *)
Record LinkBudget : Type := mkLinkBudget {
  res_id : string;
  res_path_loss : R;
  res_r_model : string;
  res_type_of_sight : string;
  res_ave_inf_pl : R;
  res_received_power : R;
  res_distance : R;
  res_interference : R;
  res_i_model : string;
  res_network_load : R;
  res_ave_distance : R;
  res_noise : R;
  res_i_plus_n : R;
  res_tranmission_type : string;
  res_sinr : Q;
  res_spectral_efficiency : Q;
  res_capacity_mbps : R;
  res_capacity_mbps_km2 : R;
  res_receiver_x : R;
  res_receiver_y : R
}.

(* ------------------------------------------------------------------ *)
(** ** The estimation pipeline *)

Section Pipeline.

(** [pysim5g.path_loss.path_loss_calculator] is imported, not defined, by
    [system_simulator.py]: the pipeline is parametric in it.  Exceptions
    raised inside the collaborator are outside the model. *)
Variable path_loss_calculator : PathLossCall -> R * string.

Variable self : SimulationManager.

(** The arguments [estimate_path_loss] builds for the collaborator
    (lines 187-223, up to the call). *)
Definition path_loss_call (receiver : Receiver) (frequency : R)
    (environment : string) (simulation_parameters : SimulationParameters)
    : result PathLossCall :=
  (let strt_distance :=
     LineString_length (rx_coordinates receiver)
       (tx_coordinates (transmitter self)) in
   let strt_distance :=
     if Rlt_dec strt_distance 20 then 20 else strt_distance in
   ant_height <- attr (tx_ant_height (transmitter self)) ;;
   let ant_type := tx_ant_type (transmitter self) in
   let type_of_sight :=
     if Rlt_dec strt_distance (los_breakpoint_m simulation_parameters)
     then "los" else "nlos" in
   Ok (mkCall frequency strt_distance ant_height ant_type
         (building_height simulation_parameters)
         (street_width simulation_parameters)
         environment type_of_sight (rx_ue_height receiver)
         (above_roof simulation_parameters) (rx_indoor receiver)
         (seed_value1 simulation_parameters)
         (iterations simulation_parameters)))%py.

Definition estimate_path_loss (receiver : Receiver) (frequency : R)
    (environment : string) (simulation_parameters : SimulationParameters)
    : result (R * string * R * string) :=
  (call <- path_loss_call receiver frequency environment
             simulation_parameters ;;
   let '(path_loss, model) := path_loss_calculator call in
   Ok (path_loss, model, arg_distance call, arg_type_of_sight call))%py.

(** The parameter [transmitter] is never read: the EIRP comes from
    [self.transmitter]. *)
Definition estimate_received_power (transmitter' : Transmitter)
    (receiver : Receiver) (path_loss : R) : result R :=
  (power <- attr (tx_power (transmitter self)) ;;
   gain <- attr (tx_gain (transmitter self)) ;;
   losses <- attr (tx_losses (transmitter self)) ;;
   let eirp := power + gain - losses in
   let received_power :=
     eirp - path_loss - rx_misc_losses receiver + rx_gain receiver
     - rx_losses receiver in
   Ok received_power)%py.

(** The arguments [estimate_interference] builds for one interfering
    transmitter (lines 317-352, up to the call).  The statement under
    [if interference_strt_distance < 20] is the comparison
    [interference_strt_distance == 20], whose value is dropped: both
    branches leave the distance as computed. *)
Definition interference_call (interfering_transmitter : Transmitter)
    (receiver : Receiver) (frequency : R) (environment : string)
    (simulation_parameters : SimulationParameters) : result PathLossCall :=
  (let interference_strt_distance :=
     LineString_length (rx_coordinates receiver)
       (tx_coordinates interfering_transmitter) in
   let interference_strt_distance :=
     if Rlt_dec interference_strt_distance 20
     then interference_strt_distance else interference_strt_distance in
   ant_height <- attr (tx_ant_height interfering_transmitter) ;;
   let ant_type := tx_ant_type interfering_transmitter in
   let type_of_sight :=
     if Rlt_dec interference_strt_distance
          (los_breakpoint_m simulation_parameters)
     then "los" else "nlos" in
   Ok (mkCall frequency interference_strt_distance ant_height ant_type
         (building_height simulation_parameters)
         (street_width simulation_parameters)
         environment type_of_sight (rx_ue_height receiver)
         (above_roof simulation_parameters) (rx_indoor receiver)
         (seed_value2 simulation_parameters)
         (iterations simulation_parameters)))%py.

(** The loop variables of [estimate_interference]: the list, the model
    name (unbound until the first iteration), and the two running sums. *)
Definition interference_state : Type :=
  (list R * option string * R * R)%type.

Fixpoint interference_loop (todo : list Transmitter) (receiver : Receiver)
    (frequency : R) (environment : string)
    (simulation_parameters : SimulationParameters)
    (st : interference_state) : result interference_state :=
  match todo with
  | [] => Ok st
  | interfering_transmitter :: rest =>
    let '(interference, _, ave_distance, ave_pl) := st in
    (call <- interference_call interfering_transmitter receiver frequency
               environment simulation_parameters ;;
     let '(path_loss, model) := path_loss_calculator call in
     received_interference <-
       estimate_received_power interfering_transmitter receiver path_loss ;;
     interference_loop rest receiver frequency environment
       simulation_parameters
       ((interference ++ [received_interference])%list, Some model,
        ave_distance + arg_distance call, ave_pl + path_loss))%py
  end.

Definition estimate_interference (receiver : Receiver) (frequency : R)
    (environment : string) (simulation_parameters : SimulationParameters)
    : result (list R * string * R * R) :=
  ('(interference, model, ave_distance, ave_pl) <-
     interference_loop (values (interfering_transmitters self)) receiver
       frequency environment simulation_parameters ([], None, 0, 0) ;;
   let n := INR (length (values (interfering_transmitters self))) in
   ave_distance <- truediv ave_distance n ;;
   ave_pl <- truediv ave_pl n ;;
   model <- match model with
            | Some m => Ok m
            | None => Raise UnboundLocalError
            end ;;
   Ok (interference, model, ave_distance, ave_pl))%py.

Definition estimate_noise (bandwidth : R) : R :=
  let k := 1.38e-23 in
  let t := 290 in
  let BW := bandwidth * 1000000 in
  10 * log10 (k * t * 1000) + 1.5 + 10 * log10 BW.

Definition estimate_sinr (received_power : R) (interference : list R)
    (noise : R) (simulation_parameters : SimulationParameters)
    : R * R * R * R * Q :=
  let raw_received_power := pow10 received_power in
  let interference_list :=
    fold_left (fun acc value => (acc ++ [pow10 value])%list) interference [] in
  let interference_list := sort_reverse interference_list in
  let interference_list := firstn 3 interference_list in
  let network_load := network_load simulation_parameters in
  let i_summed := sum interference_list in
  let raw_sum_of_interference := i_summed * (network_load / 100) in
  let raw_noise := pow10 noise in
  let i_plus_n := raw_sum_of_interference + raw_noise in
  let sinr := round2 (log10 (raw_received_power / i_plus_n)) in
  (received_power, raw_sum_of_interference, noise, i_plus_n, sinr).

(** [spectral_efficiency] is whatever the lookup returned; [None] cannot
    be multiplied. *)
Definition estimate_average_capacity (bandwidth : R)
    (spectral_efficiency : option Q) : result (R * R) :=
  match spectral_efficiency with
  | None => Raise TypeError
  | Some spectral_efficiency =>
    (let bandwidth_in_hertz := bandwidth * 1e6 in
     let capacity_mbps :=
       (bandwidth_in_hertz * Q2R spectral_efficiency) / 1e6 in
     capacity_mbps_km2 <-
       truediv capacity_mbps (sa_area (site_area self) / 1e6) ;;
     Ok (capacity_mbps, capacity_mbps_km2))%py
  end.

(** One iteration of the loop of [estimate_link_budget]. *)
Definition link_budget_of (receiver : Receiver) (frequency bandwidth : R)
    (generation ant_type tranmission_type environment : string)
    (modulation_and_coding_lut : list MCS)
    (simulation_parameters : SimulationParameters) : result LinkBudget :=
  ('(path_loss, r_model, r_distance, type_of_sight) <-
     estimate_path_loss receiver frequency environment
       simulation_parameters ;;
   received_power <-
     estimate_received_power (transmitter self) receiver path_loss ;;
   '(interference, i_model, ave_distance, ave_inf_pl) <-
     estimate_interference receiver frequency environment
       simulation_parameters ;;
   let noise := estimate_noise bandwidth in
   let '(f_received_power, f_interference, f_noise, i_plus_n, sinr) :=
     estimate_sinr received_power interference noise
       simulation_parameters in
   spectral_efficiency <-
     estimate_spectral_efficiency sinr generation
       modulation_and_coding_lut ;;
   '(capacity_mbps, capacity_mbps_km2) <-
     estimate_average_capacity bandwidth spectral_efficiency ;;
   (* [None] has raised in [estimate_average_capacity] *)
   match spectral_efficiency with
   | None => Raise TypeError
   | Some se =>
     Ok (mkLinkBudget (rx_id receiver) path_loss r_model type_of_sight
           ave_inf_pl f_received_power r_distance (log10 f_interference)
           i_model (network_load simulation_parameters) ave_distance
           f_noise (log10 i_plus_n) tranmission_type sinr se
           capacity_mbps capacity_mbps_km2
           (fst (rx_coordinates receiver)) (snd (rx_coordinates receiver)))
   end)%py.

Fixpoint link_budget_loop (todo : list Receiver) (frequency bandwidth : R)
    (generation ant_type tranmission_type environment : string)
    (modulation_and_coding_lut : list MCS)
    (simulation_parameters : SimulationParameters)
    (results : list LinkBudget) : result (list LinkBudget) :=
  match todo with
  | [] => Ok results
  | receiver :: rest =>
    (r <- link_budget_of receiver frequency bandwidth generation ant_type
            tranmission_type environment modulation_and_coding_lut
            simulation_parameters ;;
     link_budget_loop rest frequency bandwidth generation ant_type
       tranmission_type environment modulation_and_coding_lut
       simulation_parameters (results ++ [r])%list)%py
  end.

Definition estimate_link_budget (frequency bandwidth : R)
    (generation ant_type tranmission_type environment : string)
    (modulation_and_coding_lut : list MCS)
    (simulation_parameters : SimulationParameters)
    : result (list LinkBudget) :=
  link_budget_loop (values (receivers self)) frequency bandwidth generation
    ant_type tranmission_type environment modulation_and_coding_lut
    simulation_parameters [].

End Pipeline.

(* ------------------------------------------------------------------ *)
(** ** The rest of [SimulationManager] *)

(** [__init__] assigns [transmitter], [interfering_transmitters],
    [receivers] and [site_area].  The attribute [area] that
    [receiver_density] reads is assigned nowhere: on every manager it is
    absent. *)
Definition manager_area (self : SimulationManager)
    : option (dict SiteArea) := None.

(** [round(a.area)] is [rint]; the division is the true division of
    Python 3. *)
Definition receiver_density (self : SimulationManager) : result R :=
  match receivers self with
  | [] => Ok 0
  | _ :: _ =>
    (area <- attr (manager_area self) ;;
     postcode_sector_area <-
       index (map (fun a => rint (sa_area a)) (values area)) 0 ;;
     truediv (INR (length (receivers self)))
       (IZR postcode_sector_area / 1000000))%py
  end.

(* ------------------------------------------------------------------ *)
(** ** The runner, [scripts/run_script.py] *)

(** A feature of [convert_results_geojson]: a point and eight
    properties, each passed through [float]. *)
Record ResultFeature : Type := mkResultFeature {
  rf_coordinates : R * R;
  rf_path_loss : R;
  rf_received_power : R;
  rf_interference : R;
  rf_noise : R;
  rf_sinr : R;
  rf_spectral_efficiency : R;
  rf_capacity_mbps : R;
  rf_capacity_mbps_km2 : R
}.

Definition convert_results_geojson (data : list LinkBudget)
    : list ResultFeature :=
  fold_left
    (fun output datum =>
       (output ++
        [mkResultFeature (res_receiver_x datum, res_receiver_y datum)
           (res_path_loss datum) (res_received_power datum)
           (res_interference datum) (res_noise datum)
           (Q2R (res_sinr datum)) (Q2R (res_spectral_efficiency datum))
           (res_capacity_mbps datum) (res_capacity_mbps_km2 datum)])%list)
    data [].

(** A record of [obtain_percentile_values], as the lookup-table writer
    reads it. *)
Record PercentileResult : Type := mkPercentileResult {
  pr_confidence_interval : R;
  pr_tranmission_type : string;
  pr_path_loss : R;
  pr_received_power : R;
  pr_interference : R;
  pr_sinr : R;
  pr_spectral_efficiency : R;
  pr_capacity_mbps : R;
  pr_capacity_mbps_km2 : R
}.

(** The one key of [parameters] the writers read. *)
Record OutputParameters : Type := mkOutputParameters {
  sectorization : R
}.

(** What [csv.writer.writerow] is handed: a tuple of strings and
    numbers.  A csv file is the list of its rows, and the file system
    maps the path of each file that exists to its content; directories
    ([os.makedirs]) are not modelled. *)
Inductive cell : Type :=
| Text (s : string)
| Num (x : R).

Definition row : Type := list cell.
Definition filesystem : Type := dict (list row).

(** [k in d] and [d[k]] for the paths of the file system. *)
Fixpoint getitem {V : Type} (d : dict V) (k : string) : option V :=
  match d with
  | [] => None
  | (k', v) :: d' => if String.eqb k' k then Some v else getitem d' k
  end.

Definition full_results_header : row :=
  [Text "environment"; Text "inter_site_distance_m"; Text "sites_per_km2";
   Text "frequency_GHz"; Text "bandwidth_MHz"; Text "number_of_sectors";
   Text "generation"; Text "ant_type"; Text "transmittion_type";
   Text "receiver_x"; Text "receiver_y"; Text "r_distance";
   Text "path_loss_dB"; Text "r_model"; Text "received_power_dB";
   Text "interference_dB"; Text "i_model"; Text "noise_dB"; Text "sinr_dB";
   Text "spectral_efficiency_bps_hz"; Text "capacity_mbps";
   Text "capacity_mbps_km2"].

Definition lookup_table_header : row :=
  [Text "confidence_interval"; Text "environment";
   Text "inter_site_distance_m"; Text "site_area_km2"; Text "sites_per_km2";
   Text "frequency_GHz"; Text "bandwidth_MHz"; Text "number_of_sectors";
   Text "generation"; Text "ant_type"; Text "transmission_type";
   Text "path_loss_dB"; Text "received_power_dBm"; Text "interference_dBm";
   Text "sinr_dB"; Text "spectral_efficiency_bps_hz"; Text "capacity_mbps";
   Text "capacity_mbps_km2"].

Section Writers.

(** [os.path.join] belongs to the standard library of Python. *)
Variable os_path_join : string -> string -> string.

(** The file is opened with mode ['w'] after the site density has been
    computed: an existing file is replaced. *)
Definition write_full_results (fs : filesystem) (data : list LinkBudget)
    (environment : string) (site_radius : Z) (frequency bandwidth : R)
    (generation ant_type transmittion_type directory filename : string)
    (parameters : OutputParameters) : result filesystem :=
  (let sectors := sectorization parameters in
   let inter_site_distance := IZR (site_radius * 2) in
   let site_area_km2 :=
     sqrt 3 / 2 * (inter_site_distance * inter_site_distance) / 1e6 in
   sites_per_km2 <- truediv 1 site_area_km2 ;;
   let full_path := os_path_join directory filename in
   let written :=
     fold_left
       (fun rows r =>
          (rows ++
           [[Text environment; Num inter_site_distance; Num sites_per_km2;
             Num frequency; Num bandwidth; Num sectors; Text generation;
             Text ant_type; Text transmittion_type;
             Num (res_receiver_x r); Num (res_receiver_y r);
             Num (res_distance r); Num (res_path_loss r);
             Text (res_r_model r); Num (res_received_power r);
             Num (res_interference r); Text (res_i_model r);
             Num (res_noise r); Num (Q2R (res_sinr r));
             Num (Q2R (res_spectral_efficiency r));
             Num (res_capacity_mbps r); Num (res_capacity_mbps_km2 r)]])%list)
       data [full_results_header] in
   Ok (setitem fs full_path written))%py.

(** The header is written when the file does not exist yet; otherwise
    the file is opened with mode ['a']. *)
Definition write_frequency_lookup_table (fs : filesystem)
    (results : list PercentileResult) (environment : string)
    (site_radius : Z) (frequency bandwidth : R)
    (generation ant_type tranmission_type directory filename : string)
    (parameters : OutputParameters) : result filesystem :=
  (let inter_site_distance := IZR (site_radius * 2) in
   let site_area_km2 :=
     sqrt 3 / 2 * (inter_site_distance * inter_site_distance) / 1e6 in
   sites_per_km2 <- truediv 1 site_area_km2 ;;
   let sectors := sectorization parameters in
   let directory := os_path_join directory filename in
   let opened :=
     match getitem fs directory with
     | None => [lookup_table_header]
     | Some content => content
     end in
   let written :=
     fold_left
       (fun rows r =>
          (rows ++
           [[Num (pr_confidence_interval r); Text environment;
             Num inter_site_distance; Num site_area_km2; Num sites_per_km2;
             Num frequency; Num bandwidth; Num sectors; Text generation;
             Text ant_type; Text tranmission_type; Num (pr_path_loss r);
             Num (pr_received_power r); Num (pr_interference r);
             Num (pr_sinr r); Num (pr_spectral_efficiency r);
             Num (pr_capacity_mbps r);
             Num (pr_capacity_mbps_km2 r * sectors)]])%list)
       results opened in
   Ok (setitem fs directory written))%py.

End Writers.

(** [range(start, stop, step)] on integers, as the list of what it
    yields; [None] stands for the ValueError of a zero step.  The number
    of elements is the one CPython computes. *)
Definition range_length (start stop step : Z) : Z :=
  if (0 <? step)%Z then
    if (start <? stop)%Z then ((stop - start - 1) / step + 1)%Z else 0%Z
  else
    if (stop <? start)%Z then ((start - stop - 1) / (- step) + 1)%Z else 0%Z.

Definition range (start stop step : Z) : option (list Z) :=
  if (step =? 0)%Z then None
  else
    Some (map (fun k => (start + Z.of_nat k * step)%Z)
            (seq 0 (Z.to_nat (range_length start stop step)))).

(** [generate_site_radii]: a generator over [range(min, max, increment)]. *)
Definition generate_site_radii (min max increment : Z) : option (list Z) :=
  range min max increment.

Definition INCREMENT_MA : Z * Z * Z := (500, 30500, 500)%Z.
Definition INCREMENT_MI : Z * Z * Z := (40, 540, 50)%Z.

(* ------------------------------------------------------------------ *)
(** ** Specification-side definitions *)

(** None of the definitions of this part is code of the repository: they
    are the vocabulary in which the properties are stated, the text of the
    specification where it differs from the code, and the concrete inputs
    on which the pipeline is evaluated. *)

Close Scope R_scope.
Open Scope Q_scope.

(** Membership of an interval, lower bound included, upper excluded. *)
Definition in_interval (s : Q) (p : MCS * MCS) : bool :=
  ge_num s (sinr_estimate (fst p)) && lt_num s (sinr_estimate (snd p)).

(** What the three [if]s that follow the interval test return, [None]
    when the loop goes on to the next pair. *)
Definition escape (s : Q) (g : string) (h4 h5 l0 : MCS) : option Q :=
  if ge_num s (sinr_estimate h4) && String.eqb g "4G" then
    Some (spectral_eff h4)
  else if ge_num s (sinr_estimate h5) && String.eqb g "5G" then
    Some (spectral_eff h5)
  else if lt_num s (sinr_estimate l0) then Some 0
  else None.

(** The staircase of a block: walking the block in table order from the
    value [v], the spectral efficiency of the last entry whose threshold
    [s] has reached. *)
Fixpoint step_from (v : Q) (blk : list MCS) (s : Q) : Q :=
  match blk with
  | [] => v
  | e :: rest =>
    if ge_num s (sinr_estimate e) then step_from (spectral_eff e) rest s
    else v
  end.

Definition step_value (blk : list MCS) (s : Q) : Q := step_from 0 blk s.

(** Thresholds strictly increasing along a block. *)
Definition ascending (blk : list MCS) : bool :=
  forallb (fun p => lt_num (sinr_estimate (fst p)) (sinr_estimate (snd p)))
    (pairwise blk).

Definition nondecreasing (l : list Q) : bool :=
  forallb (fun p => Qle_bool (fst p) (snd p)) (pairwise l).

(** The entry of a block with the greatest threshold, and the one with
    the least. *)
Definition maximum_entry (blk : list MCS) : option MCS :=
  fold_left
    (fun acc e =>
       match acc with
       | None => Some e
       | Some m =>
         if lt_num (sinr_estimate m) (sinr_estimate e) then Some e else Some m
       end) blk None.

Definition minimum_entry (blk : list MCS) : option MCS :=
  fold_left
    (fun acc e =>
       match acc with
       | None => Some e
       | Some m =>
         if lt_num (sinr_estimate e) (sinr_estimate m) then Some e else Some m
       end) blk None.

(** No pair of the sliding window passes the guard of the loop. *)
Definition no_pair_matches (generation : string) (lut : list MCS) : bool :=
  forallb (fun p => negb (pair_matches generation p)) (pairwise lut).

Abbreviation shipped_4G := (generation_block "4G" MODULATION_AND_CODING_LUT).
Abbreviation shipped_5G := (generation_block "5G" MODULATION_AND_CODING_LUT).

Close Scope Q_scope.
Open Scope R_scope.

(** The conversion the specification words for [estimate_sinr],
    [10^(value/10)], and [estimate_sinr] with that conversion in place of
    the one of the code. *)
Definition dB_to_linear_as_specified (value : R) : R :=
  Rpower 10 (value / 10).

Definition estimate_sinr_as_specified (received_power : R)
    (interference : list R) (noise : R)
    (simulation_parameters : SimulationParameters) : R * R * R * R * Q :=
  let raw_received_power := dB_to_linear_as_specified received_power in
  let interference_list :=
    firstn 3 (sort_reverse (map dB_to_linear_as_specified interference)) in
  let raw_sum_of_interference :=
    sum interference_list * (network_load simulation_parameters / 100) in
  let raw_noise := dB_to_linear_as_specified noise in
  let i_plus_n := raw_sum_of_interference + raw_noise in
  (received_power, raw_sum_of_interference, noise, i_plus_n,
   round2 (log10 (raw_received_power / i_plus_n))).

(** The noise floor as the specification words it, with the Boltzmann
    constant 1.380649e-23. *)
Definition noise_as_specified (bandwidth : R) : R :=
  10 * log10 (1.380649e-23 * 290 * 1000) + 1.5
  + 10 * log10 (bandwidth * 1000000).

(** Two transmitters with the same antenna parameter set. *)
Definition shares_antenna_parameters (t t' : Transmitter) : Prop :=
  tx_ant_height t = tx_ant_height t'
  /\ tx_power t = tx_power t'
  /\ tx_gain t = tx_gain t'
  /\ tx_losses t = tx_losses t'.

(** The EIRP of a transmitter, power + gain - losses, defined when the
    transmitter has the three attributes. *)
Definition eirp_of (t : Transmitter) : option R :=
  match tx_power t, tx_gain t, tx_losses t with
  | Some power, Some gain, Some losses => Some (power + gain - losses)
  | _, _, _ => None
  end.

(** The received power of section 4.3 of the specification, with the EIRP
    of the transmitter [t] itself. *)
Definition received_power_of (t : Transmitter) (receiver : Receiver)
    (path_loss : R) : option R :=
  match eirp_of t with
  | Some eirp =>
    Some (eirp - path_loss - rx_misc_losses receiver + rx_gain receiver
          - rx_losses receiver)
  | None => None
  end.

(** The entry the interference loop appends for the transmitter [t]: the
    received power of [eirp_source] over the path loss the collaborator
    answers for the call built for [t]. *)
Definition interference_entry
    (path_loss_calculator : PathLossCall -> R * string)
    (receiver : Receiver) (frequency : R) (environment : string)
    (simulation_parameters : SimulationParameters)
    (eirp_source t : Transmitter) (v : R) : Prop :=
  exists call,
    interference_call t receiver frequency environment simulation_parameters
    = Ok call
    /\ received_power_of eirp_source receiver
         (fst (path_loss_calculator call)) = Some v.

(** Descending order. *)
Definition descending (l : list R) : Prop := StronglySorted Rge l.

(** Concrete inputs.  A collaborator that answers every call with the
    same loss stands for [path_loss_calculator] where the pipeline is
    evaluated; no property depends on what it answers. *)
Definition constant_path_loss (call : PathLossCall) : R * string :=
  (100, "constant").

(** A collaborator that answers with the distance it is handed. *)
Definition echo_distance (call : PathLossCall) : R * string :=
  (arg_distance call, "echo").

Definition site_at (x y : R) (name : string) : SiteFeature :=
  mkSiteFeature name (x, y).

Definition ue_at (x y : R) (name : string) : ReceiverFeature :=
  mkReceiverFeature name (x, y) 1.5 4 4 4 true.

Definition unit_area : AreaFeature := mkAreaFeature "site" 1000000.

(** The nearest of 20 and [x] from above: the distance after the floor
    of [estimate_path_loss]. *)
Definition floored (x : R) : R := Rmax 20 x.

(** The first element of a list that satisfies a test, with what comes
    before it. *)
Definition first_match (g : string) (lut : list MCS) : option (MCS * MCS) :=
  find (pair_matches g) (pairwise lut).

(** The file system after some path has been written: unchanged
    elsewhere. *)
Definition same_elsewhere (path : string) (fs fs' : filesystem) : Prop :=
  forall p, p <> path -> getitem fs' p = getitem fs p.

(** The loops of [__init__]: [d[key(a)] = val(a)] for each [a] of a
    list. *)
Definition fill {A V : Type} (key : A -> string) (val : A -> V)
    (l : list A) (d : dict V) : dict V :=
  fold_left (fun d a => setitem d (key a) (val a)) l d.

(** A lookup-table file in good order: the header, once, and data rows
    after it. *)
Definition one_header (content : list row) : Prop :=
  exists rows,
    content = lookup_table_header :: rows
    /\ ~ In lookup_table_header rows.

(** A path join to run the writers with: POSIX [os.path.join] on a
    relative file name. *)
Definition posix_join (directory filename : string) : string :=
  (directory ++ "/" ++ filename)%string.

(* ------------------------------------------------------------------ *)
(** * Properties *)

(** ** The table lookup *)

Close Scope R_scope.
Open Scope Q_scope.

(** *** Comparisons *)

Lemma ge_num_true a b : b <= a -> ge_num a b = true.
Proof. intro H. unfold ge_num. apply Qle_bool_iff. exact H. Qed.

Lemma ge_num_false a b : a < b -> ge_num a b = false.
Proof.
  intro H. unfold ge_num. destruct (Qle_bool b a) eqn:E; [|reflexivity].
  apply Qle_bool_iff in E. exfalso. eapply Qlt_not_le; eauto.
Qed.

Lemma lt_num_true a b : a < b -> lt_num a b = true.
Proof. intro H. unfold lt_num. fold (ge_num a b). now rewrite ge_num_false. Qed.

Lemma lt_num_false a b : b <= a -> lt_num a b = false.
Proof. intro H. unfold lt_num. fold (ge_num a b). now rewrite ge_num_true. Qed.

Lemma last_cons (A : Type) (a : A) (l : list A) (d : A) :
  last (a :: l) d = last l a.
Proof.
  revert a d. induction l as [|b l IH]; intros a d; [reflexivity|].
  change (last (a :: b :: l) d) with (last (b :: l) d).
  now rewrite !IH.
Qed.

(** *** One step of the loop

    The table is abstract here; the three entries the loop body reads by
    position are assumed present. *)

Section Scan.

Variables (s : Q) (g : string) (lut : list MCS) (h4 h5 l0 : MCS).
Hypothesis H14 : index lut 14 = Ok h4.
Hypothesis H29 : index lut 29 = Ok h5.
Hypothesis H0 : index lut 0 = Ok l0.

Lemma scan_cons_skip p rest :
  pair_matches g p = false ->
  scan_pairs s g lut (p :: rest) = scan_pairs s g lut rest.
Proof. destruct p as [lower upper]. cbn [scan_pairs]. now intros ->. Qed.

(** A pair that passes the guard: the interval test, then the three
    [if]s gathered in [escape]. *)
Lemma scan_cons_match p rest :
  pair_matches g p = true ->
  scan_pairs s g lut (p :: rest) =
  if in_interval s p then Ok (Some (spectral_eff (fst p)))
  else match escape s g h4 h5 l0 with
       | Some v => Ok (Some v)
       | None => scan_pairs s g lut rest
       end.
Proof.
  destruct p as [lower upper]. cbn [scan_pairs]. intros ->.
  unfold in_interval, escape. cbn [fst snd].
  destruct (_ && _); [reflexivity|].
  rewrite H14, H29. cbn [bind].
  destruct (_ && _); [reflexivity|].
  destruct (_ && _); [reflexivity|].
  rewrite H0. cbn [bind].
  destruct (lt_num _ _); reflexivity.
Qed.

Lemma scan_app_skip prefix rest :
  forallb (fun p => negb (pair_matches g p)) prefix = true ->
  scan_pairs s g lut (prefix ++ rest) = scan_pairs s g lut rest.
Proof.
  induction prefix as [|p prefix IH]; [reflexivity|].
  cbn [forallb app]. intros [Hp Hrest]%andb_prop.
  rewrite scan_cons_skip by (now apply negb_true_iff). auto.
Qed.

(** Along a run of windows that all pass the guard, and as long as no
    [escape] test fires, the loop walks the staircase of the run. *)
Lemma scan_chain e blk rest :
  forallb (pair_matches g) (pairwise (e :: blk)) = true ->
  escape s g h4 h5 l0 = None ->
  sinr_estimate e <= s ->
  s < sinr_estimate (last blk e) ->
  scan_pairs s g lut (pairwise (e :: blk) ++ rest)
  = Ok (Some (step_from (spectral_eff e) blk s)).
Proof.
  intros Hm Hesc. revert e Hm.
  induction blk as [|e' blk IH]; intros e Hm Hlo Hhi.
  - cbn [last] in Hhi. exfalso. eapply Qlt_not_le; eauto.
  - change (pairwise (e :: e' :: blk)) with ((e, e') :: pairwise (e' :: blk)) in *.
    cbn [forallb] in Hm. apply andb_prop in Hm as [Hp Hm].
    cbn [app]. rewrite scan_cons_match by exact Hp.
    unfold in_interval. cbn [fst snd step_from].
    rewrite (ge_num_true Hlo). cbn [andb].
    destruct (Qlt_le_dec s (sinr_estimate e')) as [Hlt|Hge].
    + rewrite (lt_num_true Hlt), (ge_num_false Hlt). reflexivity.
    + rewrite (lt_num_false Hge), (ge_num_true Hge), Hesc.
      apply IH; [exact Hm|exact Hge|].
      now rewrite <- (last_cons e' blk e).
Qed.

End Scan.

(** *** The staircase *)

Lemma step_from_below v e blk s :
  s < sinr_estimate e -> step_from v (e :: blk) s = v.
Proof. intro H. cbn [step_from]. now rewrite (ge_num_false H). Qed.

Lemma step_from_above blk : forall v s,
  forallb (fun e => ge_num s (sinr_estimate e)) blk = true ->
  step_from v blk s = last (map spectral_eff blk) v.
Proof.
  induction blk as [|e blk IH]; intros v s H; [reflexivity|].
  cbn [forallb] in H. apply andb_prop in H as [He H].
  cbn [step_from map]. rewrite He, (IH _ _ H).
  now rewrite last_cons.
Qed.

Lemma above_all (blk : list MCS) (top s : Q) :
  forallb (fun e => Qle_bool (sinr_estimate e) top) blk = true ->
  top <= s ->
  forallb (fun e => ge_num s (sinr_estimate e)) blk = true.
Proof.
  intros H Hs. apply forallb_forall. intros e He.
  rewrite forallb_forall in H. specialize (H e He).
  apply ge_num_true. apply Qle_bool_iff in H. eapply Qle_trans; eauto.
Qed.

Lemma step_value_below blk bottom s :
  hd_error blk = Some bottom -> s < sinr_estimate bottom ->
  step_value blk s = 0.
Proof.
  destruct blk as [|e blk]; [discriminate|]. intros [= ->] H.
  now apply step_from_below.
Qed.

Lemma step_value_head blk e s :
  hd_error blk = Some e -> sinr_estimate e <= s ->
  step_value blk s = step_from (spectral_eff e) (tl blk) s.
Proof.
  destruct blk as [|e' blk]; [discriminate|]. intros [= ->] H.
  unfold step_value. cbn [step_from tl]. now rewrite (ge_num_true H).
Qed.

Lemma step_value_above blk top s :
  forallb (fun e => Qle_bool (sinr_estimate e) top) blk = true ->
  top <= s ->
  step_value blk s = last (map spectral_eff blk) 0.
Proof.
  intros H Hs. unfold step_value. apply step_from_above.
  eapply above_all; eauto.
Qed.

Lemma lt_num_iff a b : lt_num a b = true <-> a < b.
Proof.
  split; [|apply lt_num_true].
  unfold lt_num. intros H%negb_true_iff.
  destruct (Qlt_le_dec a b) as [|Hle]; [assumption|].
  apply Qle_bool_iff in Hle. congruence.
Qed.

Lemma pairwise_cons (A : Type) (a b : A) (l : list A) :
  pairwise (a :: b :: l) = (a, b) :: pairwise (b :: l).
Proof. reflexivity. Qed.

Lemma ascending_head_lt blk : forall e x,
  ascending (e :: blk) = true -> In x blk ->
  sinr_estimate e < sinr_estimate x.
Proof.
  induction blk as [|e' blk IH]; intros e x Hasc Hin; [destruct Hin|].
  unfold ascending in Hasc. rewrite pairwise_cons in Hasc.
  cbn [forallb fst snd] in Hasc. apply andb_prop in Hasc as [Hlt Hasc].
  apply lt_num_iff in Hlt.
  destruct Hin as [->|Hin]; [exact Hlt|].
  eapply Qlt_trans; [exact Hlt|]. now apply IH.
Qed.

Lemma step_from_interval blk : forall v lower upper s,
  ascending blk = true ->
  In (lower, upper) (pairwise blk) ->
  sinr_estimate lower <= s -> s < sinr_estimate upper ->
  step_from v blk s = spectral_eff lower.
Proof.
  induction blk as [|e blk IH]; intros v lower upper s Hasc Hin Hlo Hhi.
  - destruct Hin.
  - destruct blk as [|e' blk]; [destruct Hin|].
    rewrite pairwise_cons in Hin. destruct Hin as [Heq|Hin].
    + injection Heq as -> ->. cbn [step_from].
      now rewrite (ge_num_true Hlo), (ge_num_false Hhi).
    + assert (Hlt : sinr_estimate e < sinr_estimate lower).
      { eapply ascending_head_lt; [exact Hasc|]. eapply in_combine_l. exact Hin. }
      cbn [step_from]. rewrite ge_num_true.
      * apply IH with (upper := upper); try assumption.
        unfold ascending in *. rewrite pairwise_cons in Hasc.
        cbn [forallb] in Hasc. now apply andb_prop in Hasc as [_ Hasc].
      * apply Qlt_le_weak. eapply Qlt_le_trans; eauto.
Qed.

Lemma nondecreasing_tail a b l :
  nondecreasing (a :: b :: l) = true ->
  a <= b /\ nondecreasing (b :: l) = true.
Proof.
  unfold nondecreasing. rewrite pairwise_cons. cbn [forallb fst snd].
  intros [H1 H2]%andb_prop. split; [now apply Qle_bool_iff|exact H2].
Qed.

Lemma step_from_ge blk : forall v s,
  nondecreasing (v :: map spectral_eff blk) = true ->
  v <= step_from v blk s.
Proof.
  induction blk as [|e blk IH]; intros v s H; [apply Qle_refl|].
  cbn [map] in H. apply nondecreasing_tail in H as [Hv H].
  cbn [step_from]. destruct (ge_num s (sinr_estimate e)); [|apply Qle_refl].
  eapply Qle_trans; [exact Hv|]. now apply IH.
Qed.

Lemma step_from_mono blk : forall v s1 s2,
  nondecreasing (v :: map spectral_eff blk) = true ->
  s1 <= s2 ->
  step_from v blk s1 <= step_from v blk s2.
Proof.
  induction blk as [|e blk IH]; intros v s1 s2 H Hs; [apply Qle_refl|].
  pose proof H as H'. cbn [map] in H. apply nondecreasing_tail in H as [Hv H].
  cbn [step_from].
  destruct (ge_num s1 (sinr_estimate e)) eqn:E1.
  - apply Qle_bool_iff in E1.
    rewrite ge_num_true by (eapply Qle_trans; eauto). now apply IH.
  - destruct (ge_num s2 (sinr_estimate e)); [|apply Qle_refl].
    eapply Qle_trans; [exact Hv|]. now apply step_from_ge.
Qed.

(** *** The shipped table *)

Lemma shipped_lookup_5G s :
  estimate_spectral_efficiency s "5G" MODULATION_AND_CODING_LUT
  = Ok (Some (step_value shipped_5G s)).
Proof.
  unfold estimate_spectral_efficiency.
  pose (h4 := mkMCS "4G" "1x1" 15 "64QAM" 948 5.5547 22.7).
  pose (h5 := mkMCS "5G" "8x8" 15 "256QAM" 948 50.00 22.7).
  pose (l0 := mkMCS "4G" "1x1" 1 "QPSK" 78 0.1523 (-6.7)).
  assert (H14 : index MODULATION_AND_CODING_LUT 14 = Ok h4) by reflexivity.
  assert (H29 : index MODULATION_AND_CODING_LUT 29 = Ok h5) by reflexivity.
  assert (H0 : index MODULATION_AND_CODING_LUT 0 = Ok l0) by reflexivity.
  change (pairwise MODULATION_AND_CODING_LUT)
    with (pairwise shipped_4G ++ (h4, hd h5 shipped_5G) :: pairwise shipped_5G).
  rewrite scan_app_skip by reflexivity.
  rewrite (@scan_cons_match s "5G" _ _ _ _ H14 H29 H0) by reflexivity.
  unfold in_interval. cbn [fst snd].
  change (sinr_estimate h4) with 22.7.
  change (sinr_estimate (hd h5 shipped_5G)) with (-6.7).
  unfold escape.
  change (sinr_estimate h4) with 22.7.
  change (sinr_estimate h5) with 22.7.
  change (sinr_estimate l0) with (-6.7).
  change (String.eqb "5G" "4G") with false.
  change (String.eqb "5G" "5G") with true.
  rewrite andb_false_r, andb_true_r.
  destruct (Qlt_le_dec s (-6.7)) as [Hlow|Hlow].
  - rewrite (@ge_num_false s 22.7) by Lqa.lra.
    rewrite (lt_num_true Hlow). cbn [andb].
    do 2 f_equal. symmetry.
    exact (@step_value_below shipped_5G (hd h5 shipped_5G) s eq_refl Hlow).
  - rewrite (lt_num_false Hlow), andb_false_r.
    destruct (Qlt_le_dec s 22.7) as [Hhigh|Hhigh].
    + rewrite (ge_num_false Hhigh).
      rewrite <- (app_nil_r (pairwise shipped_5G)).
      change shipped_5G with (hd h5 shipped_5G :: tl shipped_5G) at 1.
      rewrite (@scan_chain s "5G" _ _ _ _ H14 H29 H0).
      * do 2 f_equal. symmetry.
        exact (@step_value_head shipped_5G (hd h5 shipped_5G) s eq_refl Hlow).
      * reflexivity.
      * unfold escape.
        change (sinr_estimate h4) with 22.7.
        change (sinr_estimate h5) with 22.7.
        change (sinr_estimate l0) with (-6.7).
        now rewrite (ge_num_false Hhigh), (lt_num_false Hlow).
      * exact Hlow.
      * exact Hhigh.
    + rewrite (ge_num_true Hhigh).
      rewrite (@step_value_above shipped_5G 22.7 s eq_refl Hhigh).
      reflexivity.
Qed.

Lemma shipped_lookup_4G s :
  estimate_spectral_efficiency s "4G" MODULATION_AND_CODING_LUT
  = Ok (Some (step_value shipped_4G s)).
Proof.
  unfold estimate_spectral_efficiency.
  pose (h4 := mkMCS "4G" "1x1" 15 "64QAM" 948 5.5547 22.7).
  pose (h5 := mkMCS "5G" "8x8" 15 "256QAM" 948 50.00 22.7).
  pose (l0 := mkMCS "4G" "1x1" 1 "QPSK" 78 0.1523 (-6.7)).
  assert (H14 : index MODULATION_AND_CODING_LUT 14 = Ok h4) by reflexivity.
  assert (H29 : index MODULATION_AND_CODING_LUT 29 = Ok h5) by reflexivity.
  assert (H0 : index MODULATION_AND_CODING_LUT 0 = Ok l0) by reflexivity.
  set (rest := (h4, hd h5 shipped_5G) :: pairwise shipped_5G).
  destruct (Qlt_le_dec s (-6.7)) as [Hlow|Hlow];
    [|destruct (Qlt_le_dec s 22.7) as [Hhigh|Hhigh]].
  - change (pairwise MODULATION_AND_CODING_LUT)
      with ((l0, hd l0 (tl shipped_4G))
              :: (pairwise (tl shipped_4G) ++ rest)).
    rewrite (@scan_cons_match s "4G" _ _ _ _ H14 H29 H0) by reflexivity.
    unfold in_interval, escape. cbn [fst snd].
    change (sinr_estimate h4) with 22.7.
    change (sinr_estimate h5) with 22.7.
    change (sinr_estimate l0) with (-6.7).
    rewrite (ge_num_false Hlow), (lt_num_true Hlow).
    rewrite (@ge_num_false s 22.7) by Lqa.lra.
    cbn [andb]. do 2 f_equal. symmetry.
    exact (@step_value_below shipped_4G l0 s eq_refl Hlow).
  - change (pairwise MODULATION_AND_CODING_LUT)
      with (pairwise (l0 :: tl shipped_4G) ++ rest).
    rewrite (@scan_chain s "4G" _ _ _ _ H14 H29 H0).
    + do 2 f_equal. symmetry.
      exact (@step_value_head shipped_4G l0 s eq_refl Hlow).
    + reflexivity.
    + unfold escape.
      change (sinr_estimate h4) with 22.7.
      change (sinr_estimate h5) with 22.7.
      change (sinr_estimate l0) with (-6.7).
      now rewrite (ge_num_false Hhigh), (lt_num_false Hlow).
    + exact Hlow.
    + exact Hhigh.
  - change (pairwise MODULATION_AND_CODING_LUT)
      with ((l0, hd l0 (tl shipped_4G))
              :: (pairwise (tl shipped_4G) ++ rest)).
    rewrite (@scan_cons_match s "4G" _ _ _ _ H14 H29 H0) by reflexivity.
    unfold in_interval, escape. cbn [fst snd].
    change (sinr_estimate h4) with 22.7.
    change (sinr_estimate (hd l0 (tl shipped_4G))) with (-4.7).
    rewrite (@lt_num_false s (-4.7)) by Lqa.lra.
    rewrite (ge_num_true Hhigh), andb_false_r.
    change (String.eqb "4G" "4G") with true. cbn [andb].
    rewrite (@step_value_above shipped_4G 22.7 s eq_refl Hhigh).
    reflexivity.
Qed.

Lemma shipped_generations g :
  In g (map generation_tag MODULATION_AND_CODING_LUT) ->
  g = "4G" \/ g = "5G".
Proof.
  cbn [MODULATION_AND_CODING_LUT map generation_tag In].
  intuition (subst; auto).
Qed.

(** On the shipped table the lookup is the staircase of the block of the
    generation asked for. *)
Lemma shipped_lookup g s :
  In g (map generation_tag MODULATION_AND_CODING_LUT) ->
  estimate_spectral_efficiency s g MODULATION_AND_CODING_LUT
  = Ok (Some (step_value (generation_block g MODULATION_AND_CODING_LUT) s)).
Proof.
  intros [->| ->]%shipped_generations.
  - apply shipped_lookup_4G.
  - apply shipped_lookup_5G.
Qed.

Lemma step_value_interval blk lower upper s :
  ascending blk = true ->
  In (lower, upper) (pairwise blk) ->
  sinr_estimate lower <= s -> s < sinr_estimate upper ->
  step_value blk s = spectral_eff lower.
Proof. apply step_from_interval. Qed.

(** C1.  On the shipped table and for each of its generations [g], at
    every SINR [s]: for a consecutive pair [(lower, upper)] of the block of
    [g] with [lower.threshold <= s < upper.threshold] the lookup returns
    [lower.spectral_efficiency]; at or above the threshold of the maximum
    entry of the block it returns that entry's spectral efficiency; below
    the threshold of the minimum entry it returns 0.  With [g = "5G"]:
    0.0 gives 4.42, 100 gives 50.00 and -10 gives 0. *)
Theorem C1_lookup_intervals :
  (forall (s : Q) (g : string),
      In g (map generation_tag MODULATION_AND_CODING_LUT) ->
      let blk := generation_block g MODULATION_AND_CODING_LUT in
      (forall lower upper,
          In (lower, upper) (pairwise blk) ->
          sinr_estimate lower <= s -> s < sinr_estimate upper ->
          estimate_spectral_efficiency s g MODULATION_AND_CODING_LUT
          = Ok (Some (spectral_eff lower)))
      /\ (forall top,
             maximum_entry blk = Some top -> sinr_estimate top <= s ->
             estimate_spectral_efficiency s g MODULATION_AND_CODING_LUT
             = Ok (Some (spectral_eff top)))
      /\ (forall bottom,
             minimum_entry blk = Some bottom -> s < sinr_estimate bottom ->
             estimate_spectral_efficiency s g MODULATION_AND_CODING_LUT
             = Ok (Some 0)))
  /\ estimate_spectral_efficiency 0.0 "5G" MODULATION_AND_CODING_LUT
     = Ok (Some 4.42)
  /\ estimate_spectral_efficiency 100 "5G" MODULATION_AND_CODING_LUT
     = Ok (Some 50.00)
  /\ estimate_spectral_efficiency (-10) "5G" MODULATION_AND_CODING_LUT
     = Ok (Some 0).
Proof.
  split; [|repeat split; reflexivity].
  intros s g Hg blk. subst blk. rewrite (shipped_lookup s Hg).
  apply shipped_generations in Hg as [->| ->].
  - split; [|split].
    + intros lower upper Hin Hlo Hhi. do 2 f_equal.
      exact (@step_value_interval shipped_4G _ _ _ eq_refl Hin Hlo Hhi).
    + intros top Htop Hs. do 2 f_equal.
      vm_compute in Htop. injection Htop as <-.
      rewrite (@step_value_above shipped_4G 22.7 s eq_refl Hs). reflexivity.
    + intros bottom Hbot Hs. do 2 f_equal.
      vm_compute in Hbot. injection Hbot as <-.
      exact (@step_value_below shipped_4G _ s eq_refl Hs).
  - split; [|split].
    + intros lower upper Hin Hlo Hhi. do 2 f_equal.
      exact (@step_value_interval shipped_5G _ _ _ eq_refl Hin Hlo Hhi).
    + intros top Htop Hs. do 2 f_equal.
      vm_compute in Htop. injection Htop as <-.
      rewrite (@step_value_above shipped_5G 22.7 s eq_refl Hs). reflexivity.
    + intros bottom Hbot Hs. do 2 f_equal.
      vm_compute in Hbot. injection Hbot as <-.
      exact (@step_value_below shipped_5G _ s eq_refl Hs).
Qed.

Lemma C1_lookup_intervals_witness :
  estimate_spectral_efficiency 0.1 "4G" MODULATION_AND_CODING_LUT
  = Ok (Some 0.377)
  /\ estimate_spectral_efficiency 30 "4G" MODULATION_AND_CODING_LUT
     = Ok (Some 5.5547)
  /\ estimate_spectral_efficiency (-7) "5G" MODULATION_AND_CODING_LUT
     = Ok (Some 0).
Proof.
  destruct C1_lookup_intervals as [H _].
  split; [|split].
  - destruct (H 0.1 "4G") as [Hi _].
    + cbn. auto.
    + apply (Hi (mkMCS "4G" "1x1" 3 "QPSK" 193 0.377 (-2.3))
                (mkMCS "4G" "1x1" 4 "QPSK" 308 0.6016 0.2)).
      * cbn. auto 10.
      * cbn. Lqa.lra.
      * cbn. Lqa.lra.
  - destruct (H 30 "4G") as [_ [Ht _]].
    + cbn. auto.
    + apply (Ht (mkMCS "4G" "1x1" 15 "64QAM" 948 5.5547 22.7)).
      * reflexivity.
      * cbn. Lqa.lra.
  - destruct (H (-7) "5G") as [_ [_ Hb]].
    + cbn. auto 20.
    + apply (Hb (mkMCS "5G" "8x8" 1 "QPSK" 78 0.30 (-6.7))).
      * reflexivity.
      * cbn. Lqa.lra.
Defined.

(** C9.  On the shipped table and for each of its generations, the
    lookup returns a number at every SINR, and the number returned at [s1]
    is at most the one returned at [s2] whenever [s1 <= s2]. *)
Theorem C9_monotone :
  forall (g : string) (s1 s2 : Q),
    In g (map generation_tag MODULATION_AND_CODING_LUT) ->
    s1 <= s2 ->
    exists v1 v2,
      estimate_spectral_efficiency s1 g MODULATION_AND_CODING_LUT
      = Ok (Some v1)
      /\ estimate_spectral_efficiency s2 g MODULATION_AND_CODING_LUT
         = Ok (Some v2)
      /\ v1 <= v2.
Proof.
  intros g s1 s2 Hg Hs.
  exists (step_value (generation_block g MODULATION_AND_CODING_LUT) s1),
         (step_value (generation_block g MODULATION_AND_CODING_LUT) s2).
  split; [now apply shipped_lookup|].
  split; [now apply shipped_lookup|].
  apply step_from_mono; [|exact Hs].
  apply shipped_generations in Hg as [->| ->]; reflexivity.
Qed.

Lemma C9_monotone_witness :
  exists v1 v2,
    estimate_spectral_efficiency (-3) "5G" MODULATION_AND_CODING_LUT
    = Ok (Some v1)
    /\ estimate_spectral_efficiency 12 "5G" MODULATION_AND_CODING_LUT
       = Ok (Some v2)
    /\ v1 <= v2.
Proof.
  apply C9_monotone.
  - cbn. auto 20.
  - unfold Qle. cbn. lia.
Defined.


(** A table cut after its 4G block: the guard passes, the interval test
    fails, and [modulation_and_coding_lut[29]] is out of range. *)
Example short_table_raises :
  estimate_spectral_efficiency 30 "4G" (firstn 15 MODULATION_AND_CODING_LUT)
  = Raise IndexError.
Proof. reflexivity. Qed.

(** The boundaries of an interval: the lower one belongs to it, the upper
    one to the next. *)
Example boundary_values :
  estimate_spectral_efficiency (-2.3) "5G" MODULATION_AND_CODING_LUT
  = Ok (Some 4.42)
  /\ estimate_spectral_efficiency 0.2 "5G" MODULATION_AND_CODING_LUT
     = Ok (Some 6.40)
  /\ estimate_spectral_efficiency 22.7 "4G" MODULATION_AND_CODING_LUT
     = Ok (Some 5.5547).
Proof. repeat split; reflexivity. Qed.

(** The loop falls through every pair that fails the guard. *)
Lemma scan_no_match s g lut pairs :
  forallb (fun p => negb (pair_matches g p)) pairs = true ->
  scan_pairs s g lut pairs = Ok None.
Proof.
  induction pairs as [|p pairs IH]; [reflexivity|].
  cbn [forallb]. intros [Hp Hrest]%andb_prop.
  rewrite scan_cons_skip by (now apply negb_true_iff). auto.
Qed.

(** C6, as stated, fails: no pair of the shipped table has an upper entry
    tagged "3G", and the lookup for "3G" raises nothing; it returns
    [None]. *)
Lemma C6_counterexample :
  no_pair_matches "3G" MODULATION_AND_CODING_LUT = true
  /\ estimate_spectral_efficiency 0 "3G" MODULATION_AND_CODING_LUT = Ok None
  /\ forall e,
       estimate_spectral_efficiency 0 "3G" MODULATION_AND_CODING_LUT
       <> Raise e.
Proof.
  split; [reflexivity|]. split; [reflexivity|].
  intros e. change (Ok None <> (Raise e : result (option Q))). discriminate.
Qed.

(** C6, amended.  At every SINR and for every table, when no consecutive
    pair of the table passes the guard for the requested generation, the
    lookup raises no error and returns no number: its value is [None],
    not the 0.1 it was initialised with. *)
Theorem C6_no_match_returns_None :
  forall (s : Q) (g : string) (lut : list MCS),
    no_pair_matches g lut = true ->
    estimate_spectral_efficiency s g lut = Ok None.
Proof.
  intros s g lut H. unfold estimate_spectral_efficiency.
  now apply scan_no_match.
Qed.

Lemma C6_no_match_returns_None_witness :
  estimate_spectral_efficiency 12.5 "5G" (firstn 15 MODULATION_AND_CODING_LUT)
  = Ok None.
Proof.
  apply C6_no_match_returns_None. reflexivity.
Defined.

(* ------------------------------------------------------------------ *)
(** ** Distances handed to the path-loss collaborator *)

Close Scope Q_scope.
Open Scope R_scope.

Lemma bind_Ok (A B : Type) (m : result A) (k : A -> result B) (b : B) :
  bind m k = Ok b -> exists a, m = Ok a /\ k a = Ok b.
Proof. destruct m as [a|e]; [eauto|discriminate]. Qed.

Lemma LineString_length_3_4 : LineString_length (0, 0) (3, 4) = 5.
Proof.
  unfold LineString_length. cbn [fst snd].
  replace ((0 - 3) * (0 - 3) + (0 - 4) * (0 - 4)) with (5 * 5) by lra.
  apply sqrt_square. lra.
Qed.

(** The serving path does clamp: whatever the geometry, the distance in
    the call [estimate_path_loss] builds is at least 20. *)
Lemma path_loss_call_distance self receiver frequency environment
    simulation_parameters call :
  path_loss_call self receiver frequency environment simulation_parameters
  = Ok call ->
  20 <= arg_distance call.
Proof.
  unfold path_loss_call. intros H.
  apply bind_Ok in H as (h & _ & H). injection H as <-. cbn [arg_distance].
  destruct (Rlt_dec _ 20); lra.
Qed.

(** The same geometry on the serving path: the distance in the call is
    20. *)
Lemma serving_distance_clamped :
  forall m,
    SimulationManager_init [site_at 3 4 "serving"] [] "micro"
      [ue_at 0 0 "id_0"] [unit_area] PARAMETERS = Ok m ->
    exists call,
      path_loss_call m (Receiver_init (ue_at 0 0 "id_0") PARAMETERS) 3.3
        "urban" PARAMETERS = Ok call
      /\ arg_distance call = 20.
Proof.
  intros m [= <-]. eexists. split; [reflexivity|]. cbn [arg_distance].
  unfold Receiver_init, Transmitter_init, site_at, ue_at.
  cbn [transmitter rx_coordinates tx_coordinates ue_coordinates
       site_coordinates String.eqb Ascii.eqb Bool.eqb].
  rewrite LineString_length_3_4.
  destruct (Rlt_dec 5 20); lra.
Qed.

(* ------------------------------------------------------------------ *)
(** ** Noise floor *)

Lemma ln_10_pos : 0 < ln 10.
Proof. rewrite <- ln_1. apply ln_increasing; lra. Qed.

Lemma log10_increasing x y : 0 < x -> x < y -> log10 x < log10 y.
Proof.
  intros Hx Hxy. unfold log10.
  apply Rmult_lt_compat_r.
  - apply Rinv_0_lt_compat, ln_10_pos.
  - now apply ln_increasing.
Qed.

Lemma log10_pow10 x : log10 (pow10 x) = x.
Proof.
  unfold log10, pow10. rewrite ln_Rpower. field.
  pose proof ln_10_pos. lra.
Qed.

(** The value of the code lies strictly below the one the constant of the
    specification gives, at every bandwidth. *)
Lemma estimate_noise_below_specified bandwidth :
  estimate_noise bandwidth < noise_as_specified bandwidth.
Proof.
  unfold estimate_noise, noise_as_specified.
  assert (H : log10 (1.38e-23 * 290 * 1000)
              < log10 (1.380649e-23 * 290 * 1000))
    by (apply log10_increasing; lra).
  lra.
Qed.

(** C8, as stated, fails: at 1 MHz the noise of the code is not the value
    of the formula with k = 1.380649e-23. *)
Lemma C8_counterexample : estimate_noise 1 <> noise_as_specified 1.
Proof.
  pose proof (estimate_noise_below_specified 1). lra.
Qed.

(** C8, amended.  For every bandwidth B in MHz, [estimate_noise] returns
    10 log10(k T 1000) + NF + 10 log10(B 10^6) with k = 1.38e-23 J/K,
    T = 290 K and NF = 1.5 dB. *)
Theorem C8_noise_formula :
  forall B : R,
    let k := 1.38e-23 in
    let T := 290 in
    let NF := 1.5 in
    estimate_noise B
    = 10 * log10 (k * T * 1000) + NF + 10 * log10 (B * 10 ^ 6).
Proof.
  intros B k T NF. unfold estimate_noise.
  replace (10 ^ 6) with 1000000 by (simpl; lra).
  reflexivity.
Qed.

(* ------------------------------------------------------------------ *)
(** ** SINR *)

Lemma fold_left_append_map (f : R -> R) (l acc : list R) :
  fold_left (fun acc value => acc ++ [f value]) l acc = acc ++ map f l.
Proof.
  revert acc. induction l as [|x l IH]; intros acc; cbn [fold_left map].
  - now rewrite app_nil_r.
  - rewrite IH, <- app_assoc. reflexivity.
Qed.

(** The loop of [estimate_sinr] builds [map pow10 interference]. *)
Lemma estimate_sinr_unfold received_power interference noise
    simulation_parameters :
  estimate_sinr received_power interference noise simulation_parameters
  = let kept := firstn 3 (sort_reverse (map pow10 interference)) in
    let raw_sum_of_interference :=
      sum kept * (network_load simulation_parameters / 100) in
    let i_plus_n := raw_sum_of_interference + pow10 noise in
    (received_power, raw_sum_of_interference, noise, i_plus_n,
     round2 (log10 (pow10 received_power / i_plus_n))).
Proof.
  unfold estimate_sinr. rewrite fold_left_append_map. reflexivity.
Qed.

(** C3, as stated, fails: with no interferer and a noise of 10, the
    interference plus noise of the code is 10^10, and the conversion
    [10^(value/10)] would make it 10. *)
Lemma C3_counterexample :
  estimate_sinr 0 [] 10 PARAMETERS
  <> estimate_sinr_as_specified 0 [] 10 PARAMETERS.
Proof.
  intros H.
  apply (f_equal (fun t : R * R * R * R * Q => snd (fst t))) in H.
  unfold estimate_sinr, estimate_sinr_as_specified in H.
  cbn [fold_left map sort_reverse firstn fst snd] in H.
  unfold sum, dB_to_linear_as_specified, pow10 in H.
  cbn [fold_left] in H.
  replace (10 / 10) with 1 in H by lra.
  assert (Hlt : Rpower 10 1 < Rpower 10 10) by (apply Rpower_lt; lra).
  lra.
Qed.

(** C3, amended.  In [estimate_sinr] the received power, each interferer's
    received power and the noise are each converted to a linear magnitude
    by [10^value] (the value itself is the exponent) before the SINR ratio
    is formed. *)
Theorem C3_linear_conversion :
  forall (received_power : R) (interference : list R) (noise : R)
         (simulation_parameters : SimulationParameters),
    let linear := fun value => Rpower 10 value in
    let kept := firstn 3 (sort_reverse (map linear interference)) in
    let raw_sum_of_interference :=
      sum kept * (network_load simulation_parameters / 100) in
    let i_plus_n := raw_sum_of_interference + linear noise in
    estimate_sinr received_power interference noise simulation_parameters
    = (received_power, raw_sum_of_interference, noise, i_plus_n,
       round2 (log10 (linear received_power / i_plus_n))).
Proof.
  intros. apply estimate_sinr_unfold.
Qed.

(** The convention is consistent: with no interferer, [log10] undoes
    [10^value] and the SINR is the rounded difference of power and
    noise. *)
Lemma sinr_without_interference received_power noise simulation_parameters :
  snd (estimate_sinr received_power [] noise simulation_parameters)
  = round2 (received_power - noise).
Proof.
  rewrite estimate_sinr_unfold. cbn [map sort_reverse firstn snd].
  unfold sum. cbn [fold_left]. f_equal.
  rewrite Rmult_0_l, Rplus_0_l.
  unfold Rdiv, pow10. rewrite <- Rpower_Ropp, <- Rpower_plus.
  apply log10_pow10.
Qed.

(** *** Sorting and the three strongest interferers *)

Lemma insert_desc_perm x l : Permutation (insert_desc x l) (x :: l).
Proof.
  induction l as [|y l IH]; cbn [insert_desc]; [reflexivity|].
  destruct (Rle_dec y x); [reflexivity|].
  rewrite IH. apply perm_swap.
Qed.

Lemma sort_reverse_perm l : Permutation (sort_reverse l) l.
Proof.
  induction l as [|x l IH]; cbn [sort_reverse]; [reflexivity|].
  rewrite insert_desc_perm. now constructor.
Qed.

Lemma insert_desc_sorted x l :
  descending l -> descending (insert_desc x l).
Proof.
  unfold descending. induction 1 as [|y l Hl IH Hy]; cbn [insert_desc].
  - repeat constructor.
  - destruct (Rle_dec y x) as [Hle|Hnle].
    + constructor; [now constructor|].
      constructor; [lra|].
      eapply Forall_impl; [|exact Hy]. cbn. intros; lra.
    + constructor; [exact IH|].
      eapply Permutation_Forall; [symmetry; apply insert_desc_perm|].
      constructor; [lra|exact Hy].
Qed.

Lemma sort_reverse_sorted l : descending (sort_reverse l).
Proof.
  induction l as [|x l IH]; cbn [sort_reverse].
  - constructor.
  - now apply insert_desc_sorted.
Qed.

Lemma insert_desc_comm x y l :
  insert_desc x (insert_desc y l) = insert_desc y (insert_desc x l).
Proof.
  induction l as [|z l IH]; cbn [insert_desc].
  - destruct (Rle_dec y x), (Rle_dec x y); try reflexivity.
    + now replace y with x by lra.
    + lra.
  - destruct (Rle_dec z y), (Rle_dec z x); cbn [insert_desc];
      repeat match goal with
             | |- context [Rle_dec ?a ?b] => destruct (Rle_dec a b)
             end;
      try reflexivity; try lra.
    + now replace y with x by lra.
    + now rewrite IH.
Qed.

Lemma sort_reverse_Permutation l l' :
  Permutation l l' -> sort_reverse l = sort_reverse l'.
Proof.
  induction 1 as [|x l l' _ IH|x y l|l l' l'' _ IH1 _ IH2];
    cbn [sort_reverse].
  - reflexivity.
  - now rewrite IH.
  - apply insert_desc_comm.
  - congruence.
Qed.

Lemma insert_desc_app x A B :
  Forall (fun b => b <= x) B ->
  insert_desc x (A ++ B) = insert_desc x A ++ B.
Proof.
  intros HB. induction A as [|a A IH]; cbn [app insert_desc].
  - destruct HB as [|b B Hb HB]; [reflexivity|].
    cbn [insert_desc]. destruct (Rle_dec b x); [reflexivity|contradiction].
  - destruct (Rle_dec a x); [reflexivity|]. now rewrite IH.
Qed.

Lemma sort_reverse_app A B :
  (forall a b, In a A -> In b B -> b <= a) ->
  sort_reverse (A ++ B) = sort_reverse A ++ sort_reverse B.
Proof.
  induction A as [|a A IH]; intros H; cbn [app sort_reverse]; [reflexivity|].
  rewrite IH by (intros; apply H; [now right|assumption]).
  apply insert_desc_app. apply Forall_forall. intros b Hb.
  apply H; [now left|].
  eapply Permutation_in; [apply sort_reverse_perm|exact Hb].
Qed.

Lemma pow10_monotone x y : x <= y -> pow10 x <= pow10 y.
Proof. intros H. unfold pow10. apply Rle_Rpower; lra. Qed.

(** What [estimate_sinr] keeps of a list whose three strongest entries
    are [strongest]. *)
Lemma kept_of_strongest strongest others l :
  length strongest = 3%nat ->
  (forall w s, In w others -> In s strongest -> w <= s) ->
  Permutation l (strongest ++ others) ->
  firstn 3 (sort_reverse (map pow10 l))
  = sort_reverse (map pow10 strongest).
Proof.
  intros Hlen Hdom Hperm.
  rewrite (sort_reverse_Permutation (Permutation_map pow10 Hperm)).
  rewrite map_app, sort_reverse_app.
  - rewrite firstn_app.
    assert (Hl : length (sort_reverse (map pow10 strongest)) = 3%nat).
    { rewrite (Permutation_length (sort_reverse_perm _)), length_map.
      exact Hlen. }
    rewrite Hl, Nat.sub_diag, <- Hl, firstn_all. cbn [firstn].
    apply app_nil_r.
  - intros a b (s & <- & Hs)%in_map_iff (w & <- & Hw)%in_map_iff.
    apply pow10_monotone. now apply Hdom.
Qed.

(** C5.  For every interference list, [estimate_sinr] sorts the linear
    magnitudes descending and keeps the 3 largest (all of them when there
    are fewer than 3); their sum is scaled by network_load/100, the linear
    noise is added to form interference plus noise, and the SINR is
    log10(received_power_linear / interference_plus_noise) rounded to 2
    decimals.  Hence the output does not change when interferers other than
    the three strongest are removed from the list. *)
Theorem C5_three_strongest :
  forall (received_power noise : R)
         (simulation_parameters : SimulationParameters),
    (forall interference : list R,
        exists sorted : list R,
          Permutation sorted (map pow10 interference)
          /\ descending sorted
          /\ (length interference <= 3 -> firstn 3 sorted = sorted)%nat
          /\ let kept := firstn 3 sorted in
             let raw_sum_of_interference :=
               sum kept * (network_load simulation_parameters / 100) in
             let i_plus_n := raw_sum_of_interference + pow10 noise in
             estimate_sinr received_power interference noise
               simulation_parameters
             = (received_power, raw_sum_of_interference, noise, i_plus_n,
                round2 (log10 (pow10 received_power / i_plus_n))))
    /\ (forall strongest others others' l l' : list R,
           length strongest = 3%nat ->
           (forall w s, In w others -> In s strongest -> w <= s) ->
           incl others' others ->
           Permutation l (strongest ++ others) ->
           Permutation l' (strongest ++ others') ->
           estimate_sinr received_power l noise simulation_parameters
           = estimate_sinr received_power l' noise simulation_parameters).
Proof.
  intros received_power noise simulation_parameters. split.
  - intros interference.
    exists (sort_reverse (map pow10 interference)).
    split; [apply sort_reverse_perm|].
    split; [apply sort_reverse_sorted|].
    split; [|apply estimate_sinr_unfold].
    intros Hlen. apply firstn_all2.
    rewrite (Permutation_length (sort_reverse_perm _)), length_map.
    exact Hlen.
  - intros strongest others others' l l' Hlen Hdom Hincl Hl Hl'.
    rewrite !estimate_sinr_unfold.
    rewrite (@kept_of_strongest strongest others l Hlen Hdom Hl).
    rewrite (@kept_of_strongest strongest others' l' Hlen); [reflexivity| |exact Hl'].
    intros w s Hw Hs. apply Hdom; [now apply Hincl|exact Hs].
Qed.

Lemma C5_three_strongest_witness :
  estimate_sinr (-60) [-90; -70; -120; -80; -75] (-100) PARAMETERS
  = estimate_sinr (-60) [-70; -75; -80] (-100) PARAMETERS.
Proof.
  destruct (C5_three_strongest (-60) (-100) PARAMETERS) as [_ H].
  apply (H [-70; -75; -80] [-90; -120] []).
  - reflexivity.
  - cbn [In]. intros w s [<-|[<-|[]]] [<-|[<-|[<-|[]]]]; lra.
  - intros x [].
  - apply Permutation_cons_app with (l1 := [-70; -75; -80]) (l2 := [-120]).
    cbn [app]. apply perm_skip.
    apply Permutation_cons_app with (l1 := [-75; -80]) (l2 := []).
    cbn [app]. apply perm_swap.
  - cbn [app]. reflexivity.
Defined.

(* ------------------------------------------------------------------ *)
(** ** Received power and interference *)

Lemma estimate_received_power_serving self t receiver path_loss :
  estimate_received_power self t receiver path_loss
  = match received_power_of (transmitter self) receiver path_loss with
    | Some v => Ok v
    | None => Raise AttributeError
    end.
Proof.
  unfold estimate_received_power, received_power_of, eirp_of.
  destruct (tx_power (transmitter self)); [|reflexivity].
  destruct (tx_gain (transmitter self)); [|reflexivity].
  destruct (tx_losses (transmitter self)); reflexivity.
Qed.

Lemma received_power_of_shares t t' receiver path_loss :
  shares_antenna_parameters t t' ->
  received_power_of t receiver path_loss
  = received_power_of t' receiver path_loss.
Proof.
  intros (_ & Hp & Hg & Hl). unfold received_power_of, eirp_of.
  now rewrite Hp, Hg, Hl.
Qed.

Section Interference.

Variable path_loss_calculator : PathLossCall -> R * string.
Variable self : SimulationManager.
Variables (receiver : Receiver) (frequency : R) (environment : string).
Variable simulation_parameters : SimulationParameters.

Lemma interference_loop_appends todo : forall acc model d pl acc' model' d' pl',
  interference_loop path_loss_calculator self todo receiver frequency
    environment simulation_parameters (acc, model, d, pl)
  = Ok (acc', model', d', pl') ->
  exists new,
    acc' = acc ++ new
    /\ Forall2
         (interference_entry path_loss_calculator receiver frequency
            environment simulation_parameters (transmitter self))
         todo new.
Proof.
  induction todo as [|t todo IH]; intros acc model d pl acc' model' d' pl' H.
  - injection H as <- _ _ _. exists []. split; [now rewrite app_nil_r|].
    constructor.
  - cbn [interference_loop] in H.
    apply bind_Ok in H as (call & Hcall & H).
    destruct (path_loss_calculator call) as [path_loss model0] eqn:Hpl.
    apply bind_Ok in H as (v & Hv & H).
    apply IH in H as (new & -> & Hnew).
    exists (v :: new). split; [now rewrite <- app_assoc|].
    constructor; [|exact Hnew].
    unfold interference_entry.
    exists call. split; [exact Hcall|]. rewrite Hpl. cbn [fst].
    rewrite estimate_received_power_serving in Hv.
    destruct (received_power_of _ _ _); [now injection Hv as ->|discriminate].
Qed.

Lemma estimate_interference_appends interference model ave_distance ave_pl :
  estimate_interference path_loss_calculator self receiver frequency
    environment simulation_parameters
  = Ok (interference, model, ave_distance, ave_pl) ->
  Forall2
    (interference_entry path_loss_calculator receiver frequency environment
       simulation_parameters (transmitter self))
    (values (interfering_transmitters self)) interference.
Proof.
  unfold estimate_interference. intros H.
  apply bind_Ok in H as ([[[acc m] d] pl] & Hloop & H).
  apply interference_loop_appends in Hloop as (new & -> & Hnew).
  apply bind_Ok in H as (? & _ & H).
  apply bind_Ok in H as (? & _ & H).
  apply bind_Ok in H as (? & _ & H).
  injection H as <- _ _ _. exact Hnew.
Qed.

(** The loop goes through when every transmitter involved has its
    attributes. *)
Lemma interference_loop_total todo :
  received_power_of (transmitter self) receiver 0 <> None ->
  Forall (fun t => tx_ant_height t <> None) todo ->
  forall st, exists acc model d pl,
    interference_loop path_loss_calculator self todo receiver frequency
      environment simulation_parameters st
    = Ok (acc, model, d, pl)
    /\ (todo <> [] -> model <> None).
Proof.
  intros Hserving. induction 1 as [|t todo Ht _ IH]; intros [[[acc m] d] pl].
  - exists acc, m, d, pl. split; [reflexivity|congruence].
  - cbn [interference_loop]. unfold interference_call.
    destruct (tx_ant_height t) as [h|]; [|congruence].
    cbn [attr bind].
    match goal with
    | |- context [path_loss_calculator ?c] =>
        destruct (path_loss_calculator c) as [path_loss model0]
    end.
    rewrite estimate_received_power_serving.
    unfold received_power_of, eirp_of in *.
    destruct (tx_power (transmitter self)); [|congruence].
    destruct (tx_gain (transmitter self)); [|congruence].
    destruct (tx_losses (transmitter self)); [|congruence].
    cbn [bind].
    match goal with
    | |- context [interference_loop _ _ _ _ _ _ _ ?st] =>
        destruct (IH st) as (acc' & m' & d' & pl' & Heq & Hm)
    end.
    exists acc', m', d', pl'. split; [exact Heq|].
    intros _. destruct todo as [|t' todo]; [|apply Hm; discriminate].
    cbn [interference_loop] in Heq. injection Heq as _ <- _ _. discriminate.
Qed.

Lemma estimate_interference_total :
  received_power_of (transmitter self) receiver 0 <> None ->
  Forall (fun t => tx_ant_height t <> None)
    (values (interfering_transmitters self)) ->
  values (interfering_transmitters self) <> [] ->
  exists out,
    estimate_interference path_loss_calculator self receiver frequency
      environment simulation_parameters = Ok out.
Proof.
  intros Hserving Hall Hne. unfold estimate_interference.
  destruct (interference_loop_total Hserving Hall ([], None, 0, 0))
    as (acc & m & d & pl & -> & Hm).
  cbn [bind]. unfold truediv.
  destruct (Req_dec_T _ 0) as [Hz|_].
  - exfalso. destruct (values (interfering_transmitters self));
      [congruence|].
    cbn [length] in Hz. rewrite S_INR in Hz.
    pose proof (pos_INR (length l)). lra.
  - cbn [bind]. destruct m as [model|]; [|now destruct (Hm Hne)].
    cbn [bind]. eauto.
Qed.

End Interference.

(** With a single interfering transmitter the loop runs once. *)
Lemma estimate_interference_single path_loss_calculator self receiver
    frequency environment simulation_parameters t call eirp :
  values (interfering_transmitters self) = [t] ->
  interference_call t receiver frequency environment simulation_parameters
  = Ok call ->
  eirp_of (transmitter self) = Some eirp ->
  estimate_interference path_loss_calculator self receiver frequency
    environment simulation_parameters
  = Ok ([eirp - fst (path_loss_calculator call) - rx_misc_losses receiver
         + rx_gain receiver - rx_losses receiver],
        snd (path_loss_calculator call),
        arg_distance call, fst (path_loss_calculator call)).
Proof.
  intros Hvalues Hcall Heirp. unfold estimate_interference.
  rewrite Hvalues. cbn [interference_loop length]. rewrite Hcall.
  cbn [bind].
  destruct (path_loss_calculator call) as [path_loss model].
  rewrite estimate_received_power_serving. unfold received_power_of.
  rewrite Heirp. cbn [bind app fst snd]. unfold truediv.
  change (INR 1) with 1.
  destruct (Req_dec_T 1 0) as [H|_]; [exfalso; lra|].
  cbn [bind]. do 2 f_equal; [f_equal|]; field.
Qed.

(** C2, the interfering path at a concrete input: a receiver at (0, 0) and
    an interfering micro cell at (3, 4), five metres away.  The call built
    for the collaborator carries the distance 5, below the floor of 20, and
    a collaborator that answers with the distance it was handed makes
    [estimate_interference] report 5 as the average path loss. *)
Lemma C2_interference_distance_unclamped :
  exists m call,
    SimulationManager_init [site_at 300 400 "serving"] [site_at 3 4 "near"]
      "micro" [ue_at 0 0 "id_0"] [unit_area] PARAMETERS = Ok m
    /\ interference_call
         (InterferingTransmitter_init (site_at 3 4 "near") "micro"
            PARAMETERS)
         (Receiver_init (ue_at 0 0 "id_0") PARAMETERS) 3.3 "urban"
         PARAMETERS
       = Ok call
    /\ arg_distance call = 5
    /\ arg_distance call < 20
    /\ estimate_interference echo_distance m
         (Receiver_init (ue_at 0 0 "id_0") PARAMETERS) 3.3 "urban"
         PARAMETERS
       = Ok ([24 + 5 - 1 - 5 - 4 + 4 - 4], "echo", 5, 5).
Proof.
  eexists. eexists. split; [reflexivity|]. split; [reflexivity|].
  assert (Hd : LineString_length (0, 0) (3, 4) = 5)
    by exact LineString_length_3_4.
  assert (H5 : (if Rlt_dec (LineString_length (0, 0) (3, 4)) 20
                then LineString_length (0, 0) (3, 4)
                else LineString_length (0, 0) (3, 4)) = 5)
    by (destruct (Rlt_dec _ 20); exact Hd).
  split; [exact H5|].
  split; [apply Rle_lt_trans with 5; [right; exact H5|lra]|].
  erewrite estimate_interference_single;
    [|reflexivity|reflexivity|reflexivity].
  unfold echo_distance. cbn [fst snd arg_distance].
  change (rx_misc_losses (Receiver_init (ue_at 0 0 "id_0") PARAMETERS))
    with 4.
  change (rx_gain (Receiver_init (ue_at 0 0 "id_0") PARAMETERS)) with 4.
  change (rx_losses (Receiver_init (ue_at 0 0 "id_0") PARAMETERS)) with 4.
  cbn [tx_micro_power tx_micro_gain tx_micro_losses PARAMETERS].
  change (rx_coordinates (Receiver_init (ue_at 0 0 "id_0") PARAMETERS))
    with (0, 0).
  change (tx_coordinates
            (InterferingTransmitter_init (site_at 3 4 "near") "micro"
               PARAMETERS)) with (3, 4).
  rewrite H5. reflexivity.
Qed.


(** *** What the constructor establishes *)

Lemma values_setitem_Forall (V : Type) (P : V -> Prop) (d : dict V) k v :
  Forall P (values d) -> P v -> Forall P (values (setitem d k v)).
Proof.
  intros Hd Hv. induction d as [|[k' v'] d IH]; cbn [setitem].
  - now repeat constructor.
  - unfold values in *. cbn [map snd] in Hd. inversion Hd; subst.
    destruct (String.eqb k' k); cbn [map snd]; constructor; auto.
Qed.

Lemma setitem_not_empty (V : Type) (d : dict V) k v : setitem d k v <> [].
Proof.
  destruct d as [|[k' v'] d]; cbn [setitem]; [discriminate|].
  destruct (String.eqb k' k); discriminate.
Qed.

Lemma fold_setitem_Forall (A V : Type) (P : V -> Prop)
    (key : A -> string) (val : A -> V) (l : list A) :
  (forall a, P (val a)) ->
  forall d, Forall P (values d) ->
  Forall P (values (fold_left (fun d a => setitem d (key a) (val a)) l d)).
Proof.
  intros Hval. induction l as [|a l IH]; intros d Hd; cbn [fold_left].
  - exact Hd.
  - apply IH. now apply values_setitem_Forall.
Qed.

Lemma fold_setitem_not_empty (A V : Type) (key : A -> string)
    (val : A -> V) (l : list A) :
  forall d, (l <> [] \/ d <> []) ->
  fold_left (fun d a => setitem d (key a) (val a)) l d <> [].
Proof.
  induction l as [|a l IH]; intros d H; cbn [fold_left].
  - destruct H; congruence.
  - apply IH. right. apply setitem_not_empty.
Qed.

Lemma init_shares data data' ant_type simulation_parameters :
  shares_antenna_parameters
    (InterferingTransmitter_init data ant_type simulation_parameters)
    (Transmitter_init data' ant_type simulation_parameters).
Proof.
  unfold shares_antenna_parameters, InterferingTransmitter_init,
    Transmitter_init.
  destruct (String.eqb ant_type "macro"), (String.eqb ant_type "micro");
    cbn; auto.
Qed.

Lemma init_attributes data ant_type simulation_parameters :
  ant_type = "macro" \/ ant_type = "micro" ->
  let t := InterferingTransmitter_init data ant_type simulation_parameters in
  tx_ant_height t <> None /\ tx_power t <> None
  /\ tx_gain t <> None /\ tx_losses t <> None.
Proof.
  intros [->| ->]; cbn; repeat split; discriminate.
Qed.

(** Every interfering transmitter of a manager built by the constructor
    has the antenna parameter set of the serving transmitter. *)
Lemma SimulationManager_init_shares tx itxs ant_type rxs area sp m :
  SimulationManager_init tx itxs ant_type rxs area sp = Ok m ->
  Forall (fun t => shares_antenna_parameters t (transmitter m))
    (values (interfering_transmitters m)).
Proof.
  unfold SimulationManager_init. intros H.
  apply bind_Ok in H as (t0 & _ & H).
  apply bind_Ok in H as (a0 & _ & H).
  injection H as <-. cbn [transmitter interfering_transmitters].
  apply (@fold_setitem_Forall _ _
           (fun t => shares_antenna_parameters t
                       (Transmitter_init t0 ant_type sp))
           site_id
           (fun f => InterferingTransmitter_init f ant_type sp)).
  - intros a. apply init_shares.
  - constructor.
Qed.

Lemma Forall2_Forall_l (A B : Type) (P : A -> Prop) (R1 R2 : A -> B -> Prop)
    (l : list A) (l' : list B) :
  (forall a b, P a -> R1 a b -> R2 a b) ->
  Forall P l -> Forall2 R1 l l' -> Forall2 R2 l l'.
Proof.
  intros Himp Hl H. induction H as [|a b l l' Hab _ IH]; [constructor|].
  inversion Hl; subst. constructor; auto.
Qed.

(** C4.  In a manager built by the constructor, for every interfering
    transmitter [t] and receiver [r], the received interference power that
    [estimate_interference] computes is
    (t.power + t.gain - t.losses) - path_loss - r.misc_losses + r.gain
    - r.losses: the formula of the serving cell, with the EIRP of [t] and
    the receiver's own gain, losses and misc_losses.  The computation goes
    through for the antenna types macro and micro and at least one
    interferer. *)
Theorem C4_interference_power :
  forall (path_loss_calculator : PathLossCall -> R * string)
         (tx itxs : list SiteFeature) (ant_type : string)
         (rxs : list ReceiverFeature) (area : list AreaFeature)
         (sp : SimulationParameters) (m : SimulationManager),
    SimulationManager_init tx itxs ant_type rxs area sp = Ok m ->
    forall (r : Receiver) (frequency : R) (environment : string)
           (sp' : SimulationParameters),
      (forall interference model ave_distance ave_pl,
          estimate_interference path_loss_calculator m r frequency
            environment sp'
          = Ok (interference, model, ave_distance, ave_pl) ->
          Forall2
            (fun t received_interference =>
               exists power gain losses call,
                 tx_power t = Some power
                 /\ tx_gain t = Some gain
                 /\ tx_losses t = Some losses
                 /\ interference_call t r frequency environment sp'
                    = Ok call
                 /\ received_interference
                    = (power + gain - losses)
                      - fst (path_loss_calculator call)
                      - rx_misc_losses r + rx_gain r - rx_losses r)
            (values (interfering_transmitters m)) interference)
      /\ (ant_type = "macro" \/ ant_type = "micro" ->
          itxs <> [] ->
          exists out,
            estimate_interference path_loss_calculator m r frequency
              environment sp' = Ok out).
Proof.
  intros calc tx itxs ant_type rxs area sp m Hinit r frequency environment
    sp'.
  pose proof (SimulationManager_init_shares _ _ _ _ _ _ Hinit) as Hshares.
  split.
  - intros interference model ave_distance ave_pl H.
    apply estimate_interference_appends in H.
    eapply Forall2_Forall_l; [|exact Hshares|exact H].
    intros t v Ht (call & Hcall & Hv).
    rewrite <- (received_power_of_shares _ _ Ht) in Hv.
    unfold received_power_of, eirp_of in Hv.
    destruct (tx_power t) as [power|]; [|discriminate].
    destruct (tx_gain t) as [gain|]; [|discriminate].
    destruct (tx_losses t) as [losses|]; [|discriminate].
    injection Hv as <-. exists power, gain, losses, call. auto.
  - intros Hant Hne.
    unfold SimulationManager_init in Hinit.
    apply bind_Ok in Hinit as (t0 & _ & Hinit).
    apply bind_Ok in Hinit as (a0 & _ & Hinit).
    injection Hinit as <-.
    apply estimate_interference_total; cbn [transmitter interfering_transmitters].
    + destruct (init_attributes t0 sp Hant) as (_ & Hp & Hg & Hl).
      unfold received_power_of, eirp_of.
      change (Transmitter_init t0 ant_type sp)
        with (InterferingTransmitter_init t0 ant_type sp).
      destruct (tx_power _); [|congruence].
      destruct (tx_gain _); [|congruence].
      destruct (tx_losses _); [discriminate|congruence].
    + apply (@fold_setitem_Forall _ _ (fun t => tx_ant_height t <> None)
               site_id
               (fun f => InterferingTransmitter_init f ant_type sp)).
      * intros a. now destruct (init_attributes a sp Hant).
      * constructor.
    + unfold values. intros Hnil. apply map_eq_nil in Hnil. revert Hnil.
      apply fold_setitem_not_empty. now left.
Qed.

Lemma C4_interference_power_witness :
  exists m interference,
    SimulationManager_init [site_at 0 0 "serving"]
      [site_at 300 400 "east"; site_at (-300) 400 "west"] "micro"
      [ue_at 30 40 "id_0"] [unit_area] PARAMETERS = Ok m
    /\ Forall2
         (fun t received_interference =>
            exists power gain losses call,
              tx_power t = Some power
              /\ tx_gain t = Some gain
              /\ tx_losses t = Some losses
              /\ interference_call t
                   (Receiver_init (ue_at 30 40 "id_0") PARAMETERS) 3.3
                   "urban" PARAMETERS = Ok call
              /\ received_interference
                 = (power + gain - losses) - fst (constant_path_loss call)
                   - 4 + 4 - 4)
         (values (interfering_transmitters m)) interference.
Proof.
  destruct (@C4_interference_power constant_path_loss
              [site_at 0 0 "serving"]
              [site_at 300 400 "east"; site_at (-300) 400 "west"] "micro"
              [ue_at 30 40 "id_0"] [unit_area] PARAMETERS _ eq_refl
              (Receiver_init (ue_at 30 40 "id_0") PARAMETERS) 3.3 "urban"
              PARAMETERS) as [Hpower Htotal].
  destruct Htotal as ([[[interference model] d] pl] & Hout).
  - right. reflexivity.
  - discriminate.
  - eexists. exists interference. split; [reflexivity|].
    exact (Hpower _ _ _ _ Hout).
Defined.

(** C10, as stated, fails in its last part: two transmitters need not
    share an antenna-type parameter set for the values to coincide.  With
    macro power 25 and gain 4 beside micro power 24 and gain 5 (losses 1
    for both), a macro interferer under a micro serving cell gets from
    [estimate_received_power] the value its own power, gain and losses
    would give. *)
Lemma C10_counterexample :
  exists (sp : SimulationParameters) (m : SimulationManager) (v : R),
    sp = mkParameters 1000 1 2 500 30 25 4 1 10 24 5 1 5 20 0 50
    /\ transmitter m = Transmitter_init (site_at 0 0 "serving") "micro" sp
    /\ ~ shares_antenna_parameters
           (InterferingTransmitter_init (site_at 300 400 "east") "macro" sp)
           (transmitter m)
    /\ tx_power
         (InterferingTransmitter_init (site_at 300 400 "east") "macro" sp)
       <> tx_power (transmitter m)
    /\ estimate_received_power m
         (InterferingTransmitter_init (site_at 300 400 "east") "macro" sp)
         (Receiver_init (ue_at 30 40 "id_0") sp) 100 = Ok v
    /\ received_power_of
         (InterferingTransmitter_init (site_at 300 400 "east") "macro" sp)
         (Receiver_init (ue_at 30 40 "id_0") sp) 100 = Some v.
Proof.
  exists (mkParameters 1000 1 2 500 30 25 4 1 10 24 5 1 5 20 0 50).
  exists (mkManager
            (Transmitter_init (site_at 0 0 "serving") "micro"
               (mkParameters 1000 1 2 500 30 25 4 1 10 24 5 1 5 20 0 50))
            [] [] (SiteArea_init unit_area)).
  exists (24 + 5 - 1 - 100 - 4 + 4 - 4).
  split; [reflexivity|]. split; [reflexivity|].
  assert (Hpower : Some 25 <> Some 24) by (intros [= H]; lra).
  split; [intros (_ & Hp & _); exact (Hpower Hp)|].
  split; [exact Hpower|].
  split; [reflexivity|].
  change (Some (25 + 4 - 1 - 100 - 4 + 4 - 4)
          = Some (24 + 5 - 1 - 100 - 4 + 4 - 4)).
  f_equal. lra.
Qed.

(** C10, amended.  [estimate_received_power] does not read its
    transmitter parameter: in every call the EIRP is that of the serving
    transmitter of the manager, so each entry of [estimate_interference]
    combines the power, gain and losses of the serving transmitter with
    the path loss of the interferer; and [estimate_interference] does
    return such a list, one entry per interfering transmitter, when the
    serving transmitter has its power, gain and losses, every interfering
    transmitter has its height and there is at least one.  The value is
    the one the interferer's own EIRP would give exactly when the two
    EIRPs are equal: it is whenever the two transmitters share an antenna
    parameter set, and with the shipped parameters it is not for a macro
    interferer under a micro serving cell. *)
Theorem C10_serving_eirp :
  (forall (m : SimulationManager),
      (forall t t' r path_loss,
          estimate_received_power m t r path_loss
          = estimate_received_power m t' r path_loss)
      /\ (forall t r path_loss power gain losses,
             tx_power (transmitter m) = Some power ->
             tx_gain (transmitter m) = Some gain ->
             tx_losses (transmitter m) = Some losses ->
             estimate_received_power m t r path_loss
             = Ok ((power + gain - losses) - path_loss - rx_misc_losses r
                   + rx_gain r - rx_losses r))
      /\ (forall path_loss_calculator r frequency environment sp
                 interference model ave_distance ave_pl,
             estimate_interference path_loss_calculator m r frequency
               environment sp
             = Ok (interference, model, ave_distance, ave_pl) ->
             Forall2
               (fun t received_interference =>
                  exists power gain losses call,
                    tx_power (transmitter m) = Some power
                    /\ tx_gain (transmitter m) = Some gain
                    /\ tx_losses (transmitter m) = Some losses
                    /\ interference_call t r frequency environment sp
                       = Ok call
                    /\ received_interference
                       = (power + gain - losses)
                         - fst (path_loss_calculator call)
                         - rx_misc_losses r + rx_gain r - rx_losses r)
               (values (interfering_transmitters m)) interference)
      /\ (forall path_loss_calculator r frequency environment sp,
             eirp_of (transmitter m) <> None ->
             Forall (fun t => tx_ant_height t <> None)
               (values (interfering_transmitters m)) ->
             values (interfering_transmitters m) <> [] ->
             exists interference model ave_distance ave_pl,
               estimate_interference path_loss_calculator m r frequency
                 environment sp
               = Ok (interference, model, ave_distance, ave_pl)
               /\ Forall2
                    (fun t received_interference =>
                       exists power gain losses call,
                         tx_power (transmitter m) = Some power
                         /\ tx_gain (transmitter m) = Some gain
                         /\ tx_losses (transmitter m) = Some losses
                         /\ interference_call t r frequency environment sp
                            = Ok call
                         /\ received_interference
                            = (power + gain - losses)
                              - fst (path_loss_calculator call)
                              - rx_misc_losses r + rx_gain r - rx_losses r)
                    (values (interfering_transmitters m)) interference)
      /\ (forall t r path_loss v own,
             estimate_received_power m t r path_loss = Ok v ->
             received_power_of t r path_loss = Some own ->
             (shares_antenna_parameters t (transmitter m) -> v = own)
             /\ (v = own <-> eirp_of (transmitter m) = eirp_of t)))
  /\ (forall (m : SimulationManager) data data' r path_loss,
         transmitter m = Transmitter_init data "micro" PARAMETERS ->
         estimate_received_power m
           (InterferingTransmitter_init data' "macro" PARAMETERS) r path_loss
         = Ok (24 + 5 - 1 - path_loss - rx_misc_losses r + rx_gain r
               - rx_losses r)
         /\ received_power_of
              (InterferingTransmitter_init data' "macro" PARAMETERS) r
              path_loss
            = Some (40 + 16 - 1 - path_loss - rx_misc_losses r + rx_gain r
                    - rx_losses r)
         /\ 24 + 5 - 1 - path_loss - rx_misc_losses r + rx_gain r
            - rx_losses r
            <> 40 + 16 - 1 - path_loss - rx_misc_losses r + rx_gain r
               - rx_losses r).
Proof.
  assert (Hentries :
            forall m calc r frequency environment sp interference model
                   ave_distance ave_pl,
              estimate_interference calc m r frequency environment sp
              = Ok (interference, model, ave_distance, ave_pl) ->
              Forall2
                (fun t received_interference =>
                   exists power gain losses call,
                     tx_power (transmitter m) = Some power
                     /\ tx_gain (transmitter m) = Some gain
                     /\ tx_losses (transmitter m) = Some losses
                     /\ interference_call t r frequency environment sp
                        = Ok call
                     /\ received_interference
                        = (power + gain - losses) - fst (calc call)
                          - rx_misc_losses r + rx_gain r - rx_losses r)
                (values (interfering_transmitters m)) interference).
  { intros m calc r frequency environment sp interference model
      ave_distance ave_pl H.
    apply estimate_interference_appends in H.
    eapply Forall2_Forall_l with (P := fun _ => True);
      [|apply Forall_forall; auto|exact H].
    intros t v _ (call & Hcall & Hv). unfold received_power_of, eirp_of in Hv.
    destruct (tx_power (transmitter m)) as [power|]; [|discriminate].
    destruct (tx_gain (transmitter m)) as [gain|]; [|discriminate].
    destruct (tx_losses (transmitter m)) as [losses|]; [|discriminate].
    injection Hv as <-. exists power, gain, losses, call. auto. }
  split.
  - intros m. split; [reflexivity|]. split; [|split; [|split]].
    + intros t r path_loss power gain losses Hp Hg Hl.
      rewrite estimate_received_power_serving. unfold received_power_of, eirp_of.
      now rewrite Hp, Hg, Hl.
    + apply Hentries.
    + intros calc r frequency environment sp Heirp Hall Hne.
      destruct (@estimate_interference_total calc m r frequency environment
                  sp) as ([[[interference model] ave_distance] ave_pl] & H).
      * unfold received_power_of.
        destruct (eirp_of (transmitter m)); [discriminate|congruence].
      * exact Hall.
      * exact Hne.
      * exists interference, model, ave_distance, ave_pl.
        split; [exact H|]. exact (Hentries _ _ _ _ _ _ _ _ _ _ H).
    + intros t r path_loss v own Hv Hown.
      rewrite estimate_received_power_serving in Hv.
      destruct (received_power_of (transmitter m) r path_loss) as [v0|] eqn:E;
        [|discriminate].
      injection Hv as ->. split.
      * intros Hshare.
        rewrite (received_power_of_shares _ _ Hshare) in Hown. congruence.
      * unfold received_power_of, eirp_of in *.
        destruct (tx_power (transmitter m)); [|discriminate].
        destruct (tx_gain (transmitter m)); [|discriminate].
        destruct (tx_losses (transmitter m)); [|discriminate].
        destruct (tx_power t); [|discriminate].
        destruct (tx_gain t); [|discriminate].
        destruct (tx_losses t); [|discriminate].
        injection E as <-. injection Hown as <-.
        split.
        -- intros H. f_equal. lra.
        -- intros [= H]. lra.
  - intros m data data' r path_loss Hm. split; [|split].
    + rewrite estimate_received_power_serving, Hm. reflexivity.
    + reflexivity.
    + lra.
Qed.

Lemma C10_serving_eirp_witness :
  exists m,
    SimulationManager_init [site_at 0 0 "serving"]
      [site_at 300 400 "east"; site_at (-300) 400 "west"] "micro"
      [ue_at 30 40 "id_0"] [unit_area] PARAMETERS = Ok m
    /\ (exists interference model ave_distance ave_pl,
           estimate_interference constant_path_loss m
             (Receiver_init (ue_at 30 40 "id_0") PARAMETERS) 3.3 "urban"
             PARAMETERS
           = Ok (interference, model, ave_distance, ave_pl)
           /\ Forall2
                (fun t received_interference =>
                   exists power gain losses call,
                     tx_power (transmitter m) = Some power
                     /\ tx_gain (transmitter m) = Some gain
                     /\ tx_losses (transmitter m) = Some losses
                     /\ interference_call t
                          (Receiver_init (ue_at 30 40 "id_0") PARAMETERS)
                          3.3 "urban" PARAMETERS = Ok call
                     /\ received_interference
                        = (power + gain - losses)
                          - fst (constant_path_loss call) - 4 + 4 - 4)
                (values (interfering_transmitters m)) interference)
    /\ estimate_received_power m
         (InterferingTransmitter_init (site_at 300 400 "east") "macro"
            PARAMETERS)
         (Receiver_init (ue_at 30 40 "id_0") PARAMETERS) 100
       = Ok (24 + 5 - 1 - 100 - 4 + 4 - 4).
Proof.
  eexists. split; [reflexivity|].
  destruct C10_serving_eirp as [Hm Hmacro]. split.
  - refine (proj1 (proj2 (proj2 (proj2 (Hm _)))) constant_path_loss
              (Receiver_init (ue_at 30 40 "id_0") PARAMETERS) 3.3 "urban"
              PARAMETERS _ _ _).
    + discriminate.
    + repeat constructor; discriminate.
    + discriminate.
  - refine (proj1 (Hmacro _ (site_at 0 0 "serving") (site_at 300 400 "east")
                     (Receiver_init (ue_at 30 40 "id_0") PARAMETERS) 100 _)).
    reflexivity.
Defined.

(* ------------------------------------------------------------------ *)
(** ** No interfering transmitter *)

Section EmptyInterference.

Variable path_loss_calculator : PathLossCall -> R * string.
Variable self : SimulationManager.
Hypothesis no_interferer : values (interfering_transmitters self) = [].

(** The averaging division is by [len(...) = 0]. *)
Lemma estimate_interference_empty receiver frequency environment
    simulation_parameters :
  estimate_interference path_loss_calculator self receiver frequency
    environment simulation_parameters = Raise ZeroDivisionError.
Proof.
  unfold estimate_interference. rewrite no_interferer.
  cbn [interference_loop bind length INR]. unfold truediv.
  destruct (Req_dec_T 0 0); [reflexivity|congruence].
Qed.

Lemma link_budget_of_empty receiver frequency bandwidth generation ant_type
    tranmission_type environment lut simulation_parameters :
  exists e,
    link_budget_of path_loss_calculator self receiver frequency bandwidth
      generation ant_type tranmission_type environment lut
      simulation_parameters = Raise e
    /\ (e = ZeroDivisionError \/ e = AttributeError)
    /\ (tx_ant_height (transmitter self) <> None ->
        eirp_of (transmitter self) <> None ->
        e = ZeroDivisionError).
Proof.
  unfold link_budget_of, estimate_path_loss, path_loss_call.
  destruct (tx_ant_height (transmitter self)) as [h|];
    [|exists AttributeError; cbn; intuition congruence].
  cbn [attr bind].
  match goal with
  | |- context [path_loss_calculator ?c] =>
      destruct (path_loss_calculator c) as [path_loss model]
  end.
  cbn [bind]. rewrite estimate_received_power_serving.
  unfold received_power_of.
  destruct (eirp_of (transmitter self)) as [eirp|];
    [|exists AttributeError; cbn; intuition congruence].
  cbn [bind]. rewrite estimate_interference_empty. cbn [bind].
  exists ZeroDivisionError. auto.
Qed.

End EmptyInterference.

(** With no interfering transmitter and a receiver to process, the first
    iteration of [estimate_link_budget] raises. *)
Lemma no_interferer_raises path_loss_calculator m frequency bandwidth
    generation ant_type tranmission_type environment lut sp :
  values (interfering_transmitters m) = [] ->
  values (receivers m) <> [] ->
  exists e,
    estimate_link_budget path_loss_calculator m frequency bandwidth
      generation ant_type tranmission_type environment lut sp = Raise e
    /\ (e = ZeroDivisionError \/ e = AttributeError)
    /\ (tx_ant_height (transmitter m) <> None ->
        eirp_of (transmitter m) <> None ->
        e = ZeroDivisionError).
Proof.
  intros Hnone Hrx. unfold estimate_link_budget.
  destruct (values (receivers m)) as [|receiver rest]; [congruence|].
  cbn [link_budget_loop].
  destruct (@link_budget_of_empty path_loss_calculator m Hnone receiver
              frequency bandwidth generation ant_type tranmission_type
              environment lut sp)
    as (e & -> & He).
  exists e. split; [reflexivity|exact He].
Qed.

(** An antenna type other than macro and micro passes both tests of the
    constructor: no attribute beyond id, coordinates and type is set. *)
Lemma Transmitter_init_unset data ant_type simulation_parameters :
  ant_type <> "macro" -> ant_type <> "micro" ->
  Transmitter_init data ant_type simulation_parameters
  = mkTransmitter (site_id data) (site_coordinates data) ant_type
      None None None None.
Proof.
  intros Hma Hmi. unfold Transmitter_init.
  apply String.eqb_neq in Hma, Hmi. now rewrite Hma, Hmi.
Qed.

(** Without an antenna height on the serving transmitter the first stage
    raises, and with it the whole call as soon as there is a receiver. *)
Lemma estimate_path_loss_no_height path_loss_calculator self receiver
    frequency environment simulation_parameters :
  tx_ant_height (transmitter self) = None ->
  estimate_path_loss path_loss_calculator self receiver frequency
    environment simulation_parameters = Raise AttributeError.
Proof.
  intros H. unfold estimate_path_loss, path_loss_call. now rewrite H.
Qed.

Lemma no_height_raises path_loss_calculator m frequency bandwidth
    generation ant_type tranmission_type environment lut sp :
  tx_ant_height (transmitter m) = None ->
  values (receivers m) <> [] ->
  estimate_link_budget path_loss_calculator m frequency bandwidth
    generation ant_type tranmission_type environment lut sp
  = Raise AttributeError.
Proof.
  intros Hh Hrx. unfold estimate_link_budget.
  destruct (values (receivers m)) as [|receiver rest]; [congruence|].
  cbn [link_budget_loop]. unfold link_budget_of.
  now rewrite estimate_path_loss_no_height.
Qed.

(** C7, as stated, fails: with no interfering transmitter and no receiver
    the constructor returns a manager and [estimate_link_budget] returns
    the empty list; nothing is raised. *)
Lemma C7_counterexample :
  exists m,
    SimulationManager_init [site_at 0 0 "serving"] [] "macro" []
      [unit_area] PARAMETERS = Ok m
    /\ values (interfering_transmitters m) = []
    /\ estimate_link_budget constant_path_loss m 3.3 40 "5G" "macro" "8x8"
         "urban" MODULATION_AND_CODING_LUT PARAMETERS = Ok [].
Proof.
  eexists. split; [reflexivity|]. split; reflexivity.
Qed.

(** C7, amended.  If the list of interfering transmitters supplied to
    [SimulationManager] is empty and at least one receiver is supplied,
    the first [estimate_link_budget] call on the manager built raises and
    returns no result record: the error is the ZeroDivisionError of the
    averaging division in [estimate_interference] when the antenna type is
    macro or micro, and an AttributeError raised before it otherwise, by
    [estimate_path_loss]. *)
Theorem C7_no_interferer_raises :
  forall (path_loss_calculator : PathLossCall -> R * string)
         (tx : list SiteFeature) (ant_type : string)
         (rxs : list ReceiverFeature) (area : list AreaFeature)
         (sp : SimulationParameters) (m : SimulationManager)
         (frequency bandwidth : R)
         (generation ant_type' tranmission_type environment : string)
         (lut : list MCS) (sp' : SimulationParameters),
    SimulationManager_init tx [] ant_type rxs area sp = Ok m ->
    rxs <> [] ->
    exists e,
      estimate_link_budget path_loss_calculator m frequency bandwidth
        generation ant_type' tranmission_type environment lut sp' = Raise e
      /\ (e = ZeroDivisionError \/ e = AttributeError)
      /\ (ant_type = "macro" \/ ant_type = "micro" ->
          e = ZeroDivisionError)
      /\ (ant_type <> "macro" -> ant_type <> "micro" ->
          e = AttributeError
          /\ forall receiver,
               estimate_path_loss path_loss_calculator m receiver frequency
                 environment sp' = Raise AttributeError)
      /\ (forall receiver,
             estimate_interference path_loss_calculator m receiver frequency
               environment sp' = Raise ZeroDivisionError).
Proof.
  intros calc tx ant_type rxs area sp m frequency bandwidth generation
    ant_type' tranmission_type environment lut sp' Hinit Hrxs.
  unfold SimulationManager_init in Hinit.
  apply bind_Ok in Hinit as (t0 & _ & Hinit).
  apply bind_Ok in Hinit as (a0 & _ & Hinit).
  injection Hinit as <-.
  assert (Hrx : values
                  (fold_left
                     (fun d receiver =>
                        setitem d (ue_id receiver)
                          (Receiver_init receiver sp))
                     rxs []) <> []).
  { unfold values. intros Hnil. apply map_eq_nil in Hnil.
    revert Hnil. apply fold_setitem_not_empty. now left. }
  destruct (@no_interferer_raises calc
              (mkManager (Transmitter_init t0 ant_type sp) []
                 (fold_left
                    (fun d receiver =>
                       setitem d (ue_id receiver) (Receiver_init receiver sp))
                    rxs [])
                 (SiteArea_init a0))
              frequency bandwidth generation ant_type' tranmission_type
              environment lut sp')
    as (e & He & Hkind & Hzero).
  - reflexivity.
  - exact Hrx.
  - exists e. split; [exact He|]. split; [exact Hkind|].
    split; [|split].
    + intros Hant. apply Hzero; cbn [transmitter].
      * change (Transmitter_init t0 ant_type sp)
          with (InterferingTransmitter_init t0 ant_type sp).
        now destruct (init_attributes t0 sp Hant).
      * change (Transmitter_init t0 ant_type sp)
          with (InterferingTransmitter_init t0 ant_type sp).
        destruct (init_attributes t0 sp Hant) as (_ & Hp & Hg & Hl).
        unfold eirp_of.
        destruct (tx_power _); [|congruence].
        destruct (tx_gain _); [|congruence].
        destruct (tx_losses _); [discriminate|congruence].
    + intros Hma Hmi.
      assert (Hh : tx_ant_height (Transmitter_init t0 ant_type sp) = None)
        by now rewrite Transmitter_init_unset.
      split.
      * rewrite no_height_raises in He; [|exact Hh|exact Hrx].
        now injection He as <-.
      * intros receiver. now apply estimate_path_loss_no_height.
    + intros receiver. now apply estimate_interference_empty.
Qed.

Lemma C7_no_interferer_raises_witness :
  (exists m,
      SimulationManager_init [site_at 0 0 "serving"] [] "macro"
        [ue_at 30 40 "id_0"] [unit_area] PARAMETERS = Ok m
      /\ estimate_link_budget constant_path_loss m 3.3 40 "5G" "macro" "8x8"
           "urban" MODULATION_AND_CODING_LUT PARAMETERS
         = Raise ZeroDivisionError)
  /\ (exists m,
         SimulationManager_init [site_at 0 0 "serving"] [] "pico"
           [ue_at 30 40 "id_0"] [unit_area] PARAMETERS = Ok m
         /\ estimate_link_budget constant_path_loss m 3.3 40 "5G" "pico"
              "8x8" "urban" MODULATION_AND_CODING_LUT PARAMETERS
            = Raise AttributeError).
Proof.
  split.
  - eexists. split; [reflexivity|].
    destruct (@C7_no_interferer_raises constant_path_loss
                [site_at 0 0 "serving"] "macro" [ue_at 30 40 "id_0"]
                [unit_area] PARAMETERS _ 3.3 40 "5G" "macro" "8x8" "urban"
                MODULATION_AND_CODING_LUT PARAMETERS eq_refl)
      as (e & -> & _ & He & _).
    + discriminate.
    + f_equal. apply He. left. reflexivity.
  - eexists. split; [reflexivity|].
    destruct (@C7_no_interferer_raises constant_path_loss
                [site_at 0 0 "serving"] "pico" [ue_at 30 40 "id_0"]
                [unit_area] PARAMETERS _ 3.3 40 "5G" "pico" "8x8" "urban"
                MODULATION_AND_CODING_LUT PARAMETERS eq_refl)
      as (e & -> & _ & _ & He & _).
    + discriminate.
    + f_equal. apply He; discriminate.
Defined.

(** What becomes of the [None] of an unmatched generation in
    [estimate_link_budget]: the capacity stage multiplies by it and
    raises, so no result record carries a placeholder. *)
Lemma estimate_average_capacity_None self bandwidth :
  estimate_average_capacity self bandwidth None = Raise TypeError.
Proof. reflexivity. Qed.

(* ------------------------------------------------------------------ *)
(** * Further properties of the code *)

(** ** The sliding window *)

(** X1.  [pairwise] of a list of [n] elements has [n - 1] pairs (none for
    the empty list), and its [i]-th pair is made of the [i]-th and the
    [i+1]-th element of the list. *)
Theorem pairwise_consecutive :
  forall (A : Type) (l : list A),
    length (pairwise l) = pred (length l)
    /\ forall i a b,
         nth_error (pairwise l) i = Some (a, b)
         <-> nth_error l i = Some a /\ nth_error l (S i) = Some b.
Proof.
  intros A l. split.
  - destruct l as [|x l]; [reflexivity|]. cbn [length pred].
    revert x. induction l as [|y l IH]; intros x; [reflexivity|].
    rewrite pairwise_cons. cbn [length]. now rewrite IH.
  - destruct l as [|x l].
    + intros [|i] a b; cbn; split; [discriminate|intros [H _]; discriminate
                                    |discriminate|intros [H _]; discriminate].
    + revert x. induction l as [|y l IH]; intros x i a b.
      * destruct i as [|[|i]]; cbn; split; try discriminate;
          intros [_ H]; discriminate.
      * rewrite pairwise_cons. destruct i as [|i].
        -- cbn. split; [intros [= -> ->]; auto|intros [[= ->] [= ->]]; auto].
        -- cbn [nth_error]. apply IH.
Qed.

Close Scope R_scope.
Open Scope Q_scope.

(** ** The lookup on an arbitrary table *)

Lemma index_In (A : Type) (l : list A) (i : nat) (a : A) :
  index l i = Ok a -> In a l.
Proof.
  unfold index. destruct (nth_error l i) eqn:E; [|discriminate].
  intros [= <-]. eapply nth_error_In; eauto.
Qed.

Lemma index_Ok (A : Type) (l : list A) (i : nat) :
  (i < length l)%nat -> exists a, index l i = Ok a.
Proof.
  intros H. unfold index. destruct (nth_error l i) eqn:E; [eauto|].
  apply nth_error_None in E. lia.
Qed.

Lemma index_Raise (A : Type) (l : list A) (i : nat) :
  (length l <= i)%nat -> index l i = Raise IndexError.
Proof.
  intros H. unfold index. apply nth_error_None in H. now rewrite H.
Qed.

Lemma pairwise_In_fst (A : Type) (l : list A) (p : A * A) :
  In p (pairwise l) -> In (fst p) l.
Proof.
  destruct p as [a b]. unfold pairwise. intros H.
  eapply in_combine_l; eauto.
Qed.

(** What the lookup can return, one step of the loop after the other. *)
Lemma scan_pairs_outcomes s g lut pairs :
  (30 <= length lut)%nat ->
  (forall p, In p pairs -> In (fst p) lut) ->
  exists o,
    scan_pairs s g lut pairs = Ok o
    /\ (o = None \/ o = Some 0
        \/ exists e, In e lut /\ o = Some (spectral_eff e)).
Proof.
  intros Hlen.
  destruct (@index_Ok _ lut 14) as [h4 H14]; [lia|].
  destruct (@index_Ok _ lut 29) as [h5 H29]; [lia|].
  destruct (@index_Ok _ lut 0) as [l0 H0]; [lia|].
  induction pairs as [|p pairs IH]; intros Hin.
  - exists None. auto.
  - destruct (pair_matches g p) eqn:Hp.
    + rewrite (@scan_cons_match s g lut h4 h5 l0 H14 H29 H0 p pairs Hp).
      destruct (in_interval s p).
      * eexists. split; [reflexivity|]. right. right.
        exists (fst p). split; [apply Hin; now left|reflexivity].
      * unfold escape.
        destruct (_ && _).
        { eexists. split; [reflexivity|]. right. right.
          exists h4. split; [eapply index_In; eauto|reflexivity]. }
        destruct (_ && _).
        { eexists. split; [reflexivity|]. right. right.
          exists h5. split; [eapply index_In; eauto|reflexivity]. }
        destruct (lt_num _ _).
        { eexists. split; [reflexivity|]. auto. }
        apply IH. intros q Hq. apply Hin. now right.
    + rewrite scan_cons_skip by exact Hp.
      apply IH. intros q Hq. apply Hin. now right.
Qed.

Lemma scan_pairs_raises s g lut pairs e :
  scan_pairs s g lut pairs = Raise e ->
  e = IndexError /\ (length lut < 30)%nat.
Proof.
  induction pairs as [|[lower upper] pairs IH]; [discriminate|].
  cbn [scan_pairs].
  destruct (pair_matches g (lower, upper)); [|exact IH].
  destruct (_ && _); [discriminate|].
  unfold index at 1. destruct (nth_error lut 14) as [h4|] eqn:E14.
  - cbn [bind]. unfold index at 1.
    destruct (nth_error lut 29) as [h5|] eqn:E29.
    + cbn [bind].
      destruct (_ && _); [discriminate|].
      destruct (_ && _); [discriminate|].
      unfold index at 1. destruct (nth_error lut 0) as [l0|] eqn:E0.
      * cbn [bind]. destruct (lt_num _ _); [discriminate|exact IH].
      * apply nth_error_None in E0.
        assert (nth_error lut 14 <> None) by congruence.
        apply nth_error_Some in H. lia.
    + cbn [bind]. intros [= <-]. apply nth_error_None in E29.
      split; [reflexivity|lia].
  - cbn [bind]. intros [= <-]. apply nth_error_None in E14.
    split; [reflexivity|lia].
Qed.

(** X2.  On any table, whatever the SINR and the generation asked for:
    the lookup raises nothing but the IndexError of rows 14 and 29, and
    only on a table of fewer than 30 rows; on a table of 30 rows or more
    it returns [None], 0, or the spectral efficiency of a row of the
    table, never the 0.1 it was initialised with unless a row holds it. *)
Theorem lookup_outcomes :
  forall (s : Q) (g : string) (lut : list MCS),
    (forall e,
        estimate_spectral_efficiency s g lut = Raise e ->
        e = IndexError /\ (length lut < 30)%nat)
    /\ ((30 <= length lut)%nat ->
        exists o,
          estimate_spectral_efficiency s g lut = Ok o
          /\ (o = None \/ o = Some 0
              \/ exists e, In e lut /\ o = Some (spectral_eff e))).
Proof.
  intros s g lut. unfold estimate_spectral_efficiency. split.
  - intros e. apply scan_pairs_raises.
  - intros Hlen. apply scan_pairs_outcomes; [exact Hlen|].
    intros p. apply pairwise_In_fst.
Qed.

Lemma lookup_outcomes_witness :
  exists o,
    estimate_spectral_efficiency 9 "4G" MODULATION_AND_CODING_LUT = Ok o
    /\ (o = None \/ o = Some 0
        \/ exists e,
             In e MODULATION_AND_CODING_LUT /\ o = Some (spectral_eff e)).
Proof.
  apply (proj2 (lookup_outcomes 9 "4G" MODULATION_AND_CODING_LUT)).
  cbn. lia.
Defined.

Lemma scan_pairs_short s g lut pairs :
  (length lut < 30)%nat ->
  scan_pairs s g lut pairs
  = match find (pair_matches g) pairs with
    | None => Ok None
    | Some p =>
      if in_interval s p then Ok (Some (spectral_eff (fst p)))
      else Raise IndexError
    end.
Proof.
  intros Hlen. induction pairs as [|[lower upper] pairs IH]; [reflexivity|].
  cbn [scan_pairs find].
  destruct (pair_matches g (lower, upper)); [|exact IH].
  unfold in_interval. cbn [fst snd].
  destruct (_ && _); [reflexivity|].
  unfold index at 1. destruct (nth_error lut 14) as [h4|] eqn:E14;
    [|reflexivity].
  cbn [bind]. rewrite index_Raise by lia. reflexivity.
Qed.

(** X3.  On a table of fewer than 30 rows (a table with the 4G block
    only, say) the lookup consults the first window that passes the guard
    and no other: it returns that window's lower spectral efficiency when
    the SINR lies in its interval, raises IndexError when it does not, and
    returns [None] when no window passes the guard. *)
Theorem lookup_short_table :
  forall (s : Q) (g : string) (lut : list MCS),
    (length lut < 30)%nat ->
    estimate_spectral_efficiency s g lut
    = match first_match g lut with
      | None => Ok None
      | Some p =>
        if in_interval s p then Ok (Some (spectral_eff (fst p)))
        else Raise IndexError
      end.
Proof.
  intros s g lut H. unfold estimate_spectral_efficiency, first_match.
  now apply scan_pairs_short.
Qed.

Lemma lookup_short_table_witness :
  estimate_spectral_efficiency 0 "4G" (firstn 15 MODULATION_AND_CODING_LUT)
  = Raise IndexError.
Proof.
  rewrite lookup_short_table; [reflexivity|cbn; lia].
Defined.

Lemma find_split (A : Type) (f : A -> bool) (l : list A) (a : A) :
  find f l = Some a ->
  exists prefix rest,
    l = prefix ++ a :: rest
    /\ forallb (fun x => negb (f x)) prefix = true
    /\ f a = true.
Proof.
  induction l as [|x l IH]; [discriminate|]. cbn [find].
  destruct (f x) eqn:E.
  - intros [= <-]. exists [], l. auto.
  - intros H. destruct (IH H) as (prefix & rest & -> & Hp & Ha).
    exists (x :: prefix), rest. cbn [forallb app]. rewrite E. auto.
Qed.

(** X4.  Saturation and floor are decided at the first window that
    passes the guard, against fixed rows of the table: when the SINR is
    outside that window's interval, generation "4G" saturates at the
    threshold of row 14 and returns the spectral efficiency of row 14,
    generation "5G" does so with row 29, and below saturation a SINR under
    the threshold of row 0 returns 0, whatever generation those rows
    belong to. *)
Theorem saturation_reads_fixed_rows :
  forall (s : Q) (g : string) (lut : list MCS) (h4 h5 l0 : MCS)
         (p : MCS * MCS),
    index lut 14 = Ok h4 ->
    index lut 29 = Ok h5 ->
    index lut 0 = Ok l0 ->
    first_match g lut = Some p ->
    in_interval s p = false ->
    (g = "4G" -> sinr_estimate h4 <= s ->
     estimate_spectral_efficiency s g lut = Ok (Some (spectral_eff h4)))
    /\ (g = "5G" -> sinr_estimate h5 <= s ->
        estimate_spectral_efficiency s g lut = Ok (Some (spectral_eff h5)))
    /\ ((g = "4G" -> s < sinr_estimate h4) ->
        (g = "5G" -> s < sinr_estimate h5) ->
        s < sinr_estimate l0 ->
        estimate_spectral_efficiency s g lut = Ok (Some 0)).
Proof.
  intros s g lut h4 h5 l0 p H14 H29 H0 Hfirst Hout.
  unfold first_match in Hfirst.
  apply find_split in Hfirst as (prefix & rest & Hpairs & Hprefix & Hp).
  unfold estimate_spectral_efficiency. rewrite Hpairs.
  rewrite scan_app_skip by exact Hprefix.
  rewrite (@scan_cons_match s g lut h4 h5 l0 H14 H29 H0 p rest Hp).
  rewrite Hout. unfold escape. split; [|split].
  - intros -> Hs. rewrite (ge_num_true Hs). reflexivity.
  - intros -> Hs. rewrite (ge_num_true Hs).
    change (String.eqb "5G" "4G") with false.
    rewrite andb_false_r. reflexivity.
  - intros H4 H5 Hs.
    destruct (String.eqb g "4G") eqn:E4.
    + apply String.eqb_eq in E4. rewrite (ge_num_false (H4 E4)).
      cbn [andb]. rewrite E4. change (String.eqb "4G" "5G") with false.
      rewrite andb_false_r. now rewrite (lt_num_true Hs).
    + rewrite andb_false_r.
      destruct (String.eqb g "5G") eqn:E5.
      * apply String.eqb_eq in E5. rewrite (ge_num_false (H5 E5)).
        cbn [andb]. now rewrite (lt_num_true Hs).
      * rewrite andb_false_r. now rewrite (lt_num_true Hs).
Qed.

Lemma saturation_reads_fixed_rows_witness :
  estimate_spectral_efficiency 40 "5G"
    (shipped_5G ++ shipped_4G)
  = Ok (Some 5.5547).
Proof.
  refine (proj1 (proj2 (@saturation_reads_fixed_rows 40 "5G"
            (shipped_5G ++ shipped_4G)
            (mkMCS "5G" "8x8" 15 "256QAM" 948 50.00 22.7)
            (mkMCS "4G" "1x1" 15 "64QAM" 948 5.5547 22.7)
            (mkMCS "5G" "8x8" 1 "QPSK" 78 0.30 (-6.7))
            _ eq_refl eq_refl eq_refl eq_refl eq_refl)) eq_refl _).
  cbn. Lqa.lra.
Defined.

Close Scope Q_scope.
Open Scope R_scope.

(* ------------------------------------------------------------------ *)
(** ** Capacity *)

(** X5.  [estimate_average_capacity] on a number: with a site area other
    than 0 it returns the capacity bandwidth x spectral efficiency (MHz
    times bit/s/Hz is Mbit/s) and an areal capacity that, multiplied by
    the area in km2, gives the capacity back; with a site area of 0 the
    division raises ZeroDivisionError. *)
Theorem capacity_per_area :
  forall (self : SimulationManager) (bandwidth : R)
         (spectral_efficiency : Q),
    (sa_area (site_area self) <> 0 ->
     exists capacity_mbps capacity_mbps_km2,
       estimate_average_capacity self bandwidth (Some spectral_efficiency)
       = Ok (capacity_mbps, capacity_mbps_km2)
       /\ capacity_mbps = bandwidth * Q2R spectral_efficiency
       /\ capacity_mbps_km2 * (sa_area (site_area self) / 1e6)
          = capacity_mbps)
    /\ (sa_area (site_area self) = 0 ->
        estimate_average_capacity self bandwidth (Some spectral_efficiency)
        = Raise ZeroDivisionError).
Proof.
  intros self bandwidth se. unfold estimate_average_capacity, truediv.
  split.
  - intros Harea.
    destruct (Req_dec_T _ 0) as [Hz|Hnz]; [exfalso; lra|].
    cbn [bind]. eexists. eexists. split; [reflexivity|].
    split; field. lra.
  - intros ->. destruct (Req_dec_T _ 0) as [_|Hnz]; [reflexivity|].
    exfalso. apply Hnz. lra.
Qed.

Lemma capacity_per_area_witness :
  exists m capacity_mbps capacity_mbps_km2,
    SimulationManager_init [site_at 0 0 "serving"] [] "macro" []
      [unit_area] PARAMETERS = Ok m
    /\ estimate_average_capacity m 20 (Some 1%Q)
       = Ok (capacity_mbps, capacity_mbps_km2)
    /\ capacity_mbps = 20 * Q2R 1
    /\ capacity_mbps_km2 * (1000000 / 1e6) = capacity_mbps.
Proof.
  exists (mkManager (Transmitter_init (site_at 0 0 "serving") "macro"
                       PARAMETERS) [] [] (SiteArea_init unit_area)).
  destruct (proj1 (@capacity_per_area
                     (mkManager (Transmitter_init (site_at 0 0 "serving")
                                   "macro" PARAMETERS) [] []
                        (SiteArea_init unit_area)) 20 1%Q))
    as (c & k & H).
  - cbn. lra.
  - exists c, k. split; [reflexivity|exact H].
Defined.

(* ------------------------------------------------------------------ *)
(** ** The serving path *)

(** X6.  [estimate_path_loss] raises AttributeError when the serving
    transmitter has no antenna height; otherwise it returns the answer of
    the collaborator for a call whose distance is the straight-line
    distance raised to the floor of 20, together with that distance and
    the sight, which is "los" exactly when the floored distance is below
    [los_breakpoint_m] and "nlos" otherwise.  With a breakpoint of 20 or
    less no receiver is ever in line of sight. *)
Theorem estimate_path_loss_result :
  forall (path_loss_calculator : PathLossCall -> R * string)
         (self : SimulationManager) (receiver : Receiver) (frequency : R)
         (environment : string) (sp : SimulationParameters),
    let d := LineString_length (rx_coordinates receiver)
               (tx_coordinates (transmitter self)) in
    (tx_ant_height (transmitter self) = None ->
     estimate_path_loss path_loss_calculator self receiver frequency
       environment sp = Raise AttributeError)
    /\ (tx_ant_height (transmitter self) <> None ->
        exists call,
          path_loss_call self receiver frequency environment sp = Ok call
          /\ estimate_path_loss path_loss_calculator self receiver
               frequency environment sp
             = Ok (fst (path_loss_calculator call),
                   snd (path_loss_calculator call),
                   floored d, arg_type_of_sight call)
          /\ arg_distance call = floored d
          /\ arg_seed_value call = seed_value1 sp
          /\ (floored d < los_breakpoint_m sp ->
              arg_type_of_sight call = "los")
          /\ (los_breakpoint_m sp <= floored d ->
              arg_type_of_sight call = "nlos")
          /\ (los_breakpoint_m sp <= 20 ->
              arg_type_of_sight call = "nlos")).
Proof.
  intros calc self receiver frequency environment sp d.
  unfold estimate_path_loss, path_loss_call. fold d.
  assert (Hfloor : (if Rlt_dec d 20 then 20 else d) = floored d).
  { unfold floored, Rmax. destruct (Rlt_dec d 20), (Rle_dec 20 d);
      try reflexivity; lra. }
  rewrite Hfloor.
  split.
  - intros ->. reflexivity.
  - destruct (tx_ant_height (transmitter self)) as [h|]; [|congruence].
    intros _. cbn [attr bind]. eexists. split; [reflexivity|].
    cbn [arg_distance arg_type_of_sight arg_seed_value].
    split; [now destruct (calc _)|]. split; [reflexivity|].
    split; [reflexivity|].
    assert (H20 : 20 <= floored d) by apply Rmax_l.
    destruct (Rlt_dec (floored d) (los_breakpoint_m sp));
      repeat split; intros; try reflexivity; lra.
Qed.

Lemma estimate_path_loss_result_witness :
  exists call,
    path_loss_call
      (mkManager (Transmitter_init (site_at 3 4 "serving") "micro"
                    PARAMETERS) [] [] (SiteArea_init unit_area))
      (Receiver_init (ue_at 0 0 "id_0") PARAMETERS) 3.3 "urban" PARAMETERS
    = Ok call
    /\ arg_distance call = floored 5
    /\ arg_type_of_sight call = "los".
Proof.
  destruct (proj2 (@estimate_path_loss_result constant_path_loss
              (mkManager (Transmitter_init (site_at 3 4 "serving") "micro"
                            PARAMETERS) [] [] (SiteArea_init unit_area))
              (Receiver_init (ue_at 0 0 "id_0") PARAMETERS) 3.3 "urban"
              PARAMETERS))
    as (call & Hcall & _ & Hd & _ & Hlos & _).
  - discriminate.
  - exists call. split; [exact Hcall|].
    change (LineString_length
              (rx_coordinates (Receiver_init (ue_at 0 0 "id_0") PARAMETERS))
              (tx_coordinates
                 (transmitter
                    (mkManager
                       (Transmitter_init (site_at 3 4 "serving") "micro"
                          PARAMETERS) [] [] (SiteArea_init unit_area)))))
      with (LineString_length (0, 0) (3, 4)) in *.
    rewrite LineString_length_3_4 in *.
    split; [exact Hd|]. apply Hlos.
    unfold floored, Rmax. cbn [los_breakpoint_m PARAMETERS].
    destruct (Rle_dec 20 5); lra.
Defined.

(* ------------------------------------------------------------------ *)
(** ** What [estimate_interference] reports *)

Lemma fold_left_Rplus (l : list R) (a : R) :
  fold_left Rplus l a = a + sum l.
Proof.
  unfold sum. revert a. induction l as [|x l IH]; intros a; cbn [fold_left].
  - lra.
  - rewrite IH, (IH (0 + x)). lra.
Qed.

Lemma sum_cons (x : R) (l : list R) : sum (x :: l) = x + sum l.
Proof. unfold sum at 1. cbn [fold_left]. rewrite fold_left_Rplus. lra. Qed.

Section InterferenceReport.

Variable path_loss_calculator : PathLossCall -> R * string.
Variable self : SimulationManager.
Variables (receiver : Receiver) (frequency : R) (environment : string).
Variable simulation_parameters : SimulationParameters.

Lemma interference_loop_report todo :
  forall acc model d pl acc' model' d' pl',
    interference_loop path_loss_calculator self todo receiver frequency
      environment simulation_parameters (acc, model, d, pl)
    = Ok (acc', model', d', pl') ->
    exists calls,
      Forall2
        (fun t call =>
           interference_call t receiver frequency environment
             simulation_parameters = Ok call) todo calls
      /\ length acc' = (length acc + length todo)%nat
      /\ d' = d + sum (map arg_distance calls)
      /\ pl' = pl + sum (map (fun c => fst (path_loss_calculator c)) calls)
      /\ model'
         = last (map (fun c => Some (snd (path_loss_calculator c))) calls)
             model.
Proof.
  induction todo as [|t todo IH]; intros acc model d pl acc' model' d' pl' H.
  - injection H as <- <- <- <-. exists []. cbn.
    repeat split; try constructor; try lia; unfold sum; cbn; lra.
  - cbn [interference_loop] in H.
    apply bind_Ok in H as (call & Hcall & H).
    destruct (path_loss_calculator call) as [path_loss model0] eqn:Hpl.
    apply bind_Ok in H as (v & Hv & H).
    apply IH in H as (calls & Hcalls & Hlen & Hd & Hp & Hm).
    exists (call :: calls). split; [now constructor|].
    rewrite length_app in Hlen. cbn [length map] in *.
    rewrite !sum_cons, Hpl. cbn [fst snd].
    split; [lia|]. split; [lra|]. split; [lra|].
    rewrite Hm. now rewrite last_cons.
Qed.

End InterferenceReport.

(** X7.  When [estimate_interference] returns, the list holds one
    received power per interfering transmitter; the distance and path
    loss it reports are the arithmetic means over the calls made to the
    collaborator, one per interfering transmitter in the order of the
    manager; and the model name is the one the collaborator answered for
    the last interfering transmitter. *)
Theorem estimate_interference_report :
  forall (path_loss_calculator : PathLossCall -> R * string)
         (self : SimulationManager) (receiver : Receiver) (frequency : R)
         (environment : string) (sp : SimulationParameters)
         (interference : list R) (model : string)
         (ave_distance ave_pl : R),
    estimate_interference path_loss_calculator self receiver frequency
      environment sp
    = Ok (interference, model, ave_distance, ave_pl) ->
    let n := length (values (interfering_transmitters self)) in
    exists earlier_calls last_call,
      let calls := earlier_calls ++ [last_call] in
      Forall2
        (fun t call =>
           interference_call t receiver frequency environment sp = Ok call)
        (values (interfering_transmitters self)) calls
      /\ length interference = n
      /\ ave_distance * INR n = sum (map arg_distance calls)
      /\ ave_pl * INR n
         = sum (map (fun c => fst (path_loss_calculator c)) calls)
      /\ model = snd (path_loss_calculator last_call).
Proof.
  intros calc self receiver frequency environment sp interference model
    ave_distance ave_pl H n.
  unfold estimate_interference in H. fold n in H.
  apply bind_Ok in H as ([[[acc m] d] pl] & Hloop & H).
  apply interference_loop_report in Hloop
    as (calls & Hcalls & Hlen & Hd & Hp & Hm).
  unfold truediv in H.
  destruct (Req_dec_T (INR n) 0) as [|Hn]; [discriminate|].
  cbn [bind] in H. destruct m as [m|]; [|discriminate].
  cbn [bind] in H. injection H as <- <- <- <-.
  destruct calls as [|c0 calls0] eqn:Ecalls; [discriminate Hm|].
  destruct (@exists_last _ (c0 :: calls0)) as (earlier & last_call & Hsplit);
    [discriminate|].
  rewrite Hsplit in *. exists earlier, last_call. cbn zeta.
  split; [exact Hcalls|]. split; [exact Hlen|].
  split; [rewrite Hd; field; exact Hn|].
  split; [rewrite Hp; field; exact Hn|].
  rewrite map_app in Hm. cbn [map] in Hm. rewrite last_last in Hm.
  now injection Hm as ->.
Qed.

Lemma estimate_interference_report_witness :
  exists earlier_calls last_call,
    100 * INR 1
    = sum (map (fun c => fst (constant_path_loss c))
             (earlier_calls ++ [last_call])).
Proof.
  pose (m := mkManager
               (Transmitter_init (site_at 300 400 "serving") "micro"
                  PARAMETERS)
               [("near",
                 InterferingTransmitter_init (site_at 3 4 "near") "micro"
                   PARAMETERS)]
               [] (SiteArea_init unit_area)).
  pose (r := Receiver_init (ue_at 0 0 "id_0") PARAMETERS).
  destruct (interference_call
              (InterferingTransmitter_init (site_at 3 4 "near") "micro"
                 PARAMETERS) r 3.3 "urban" PARAMETERS) as [call|e] eqn:Hcall;
    [|discriminate Hcall].
  pose proof (@estimate_interference_single constant_path_loss m r 3.3
                "urban" PARAMETERS _ call (24 + 5 - 1) eq_refl Hcall
                eq_refl) as H.
  destruct (@estimate_interference_report constant_path_loss m r 3.3 "urban"
              PARAMETERS _ _ _ _ H)
    as (earlier & last_call & _ & Hlen & _ & Hp & _).
  exists earlier, last_call. exact Hp.
Defined.

(* ------------------------------------------------------------------ *)
(** ** More on SINR *)

(** X8.  [estimate_sinr] does not depend on the order of the interference
    list: the dictionary order of the interfering transmitters has no
    influence on any of the five values returned. *)
Theorem estimate_sinr_order_irrelevant :
  forall (received_power noise : R) (sp : SimulationParameters)
         (interference interference' : list R),
    Permutation interference interference' ->
    estimate_sinr received_power interference noise sp
    = estimate_sinr received_power interference' noise sp.
Proof.
  intros rp noise sp l l' H. rewrite !estimate_sinr_unfold.
  now rewrite (sort_reverse_Permutation (Permutation_map pow10 H)).
Qed.

Lemma estimate_sinr_order_irrelevant_witness :
  estimate_sinr (-60) [-90; -70; -80] (-100) PARAMETERS
  = estimate_sinr (-60) [-70; -80; -90] (-100) PARAMETERS.
Proof.
  apply estimate_sinr_order_irrelevant.
  apply Permutation_cons_app with (l1 := [-70; -80]) (l2 := []).
  reflexivity.
Defined.














(* ------------------------------------------------------------------ *)
(** ** More on the noise floor *)

Lemma log10_mult x y : 0 < x -> 0 < y -> log10 (x * y) = log10 x + log10 y.
Proof.
  intros Hx Hy. unfold log10. rewrite ln_mult by assumption.
  field. pose proof ln_10_pos. lra.
Qed.

Lemma log10_10 : log10 10 = 1.
Proof. unfold log10. field. pose proof ln_10_pos. lra. Qed.

(** X10.  For positive bandwidths the noise floor grows with the
    bandwidth, by exactly 10 dB for each factor of ten. *)
Theorem estimate_noise_bandwidth :
  forall B B' : R,
    0 < B ->
    estimate_noise (10 * B) = estimate_noise B + 10
    /\ (B < B' -> estimate_noise B < estimate_noise B').
Proof.
  intros B B' HB. unfold estimate_noise. split.
  - replace (10 * B * 1000000) with (10 * (B * 1000000)) by lra.
    rewrite (@log10_mult 10 (B * 1000000)) by lra. rewrite log10_10. lra.
  - intros Hlt.
    assert (H : log10 (B * 1000000) < log10 (B' * 1000000))
      by (apply log10_increasing; lra).
    lra.
Qed.

Lemma estimate_noise_bandwidth_witness :
  estimate_noise (10 * 20) = estimate_noise 20 + 10
  /\ estimate_noise 20 < estimate_noise 40.
Proof.
  destruct (@estimate_noise_bandwidth 20 40) as [H10 Hlt]; [lra|].
  split; [exact H10|apply Hlt; lra].
Defined.

(* ------------------------------------------------------------------ *)
(** ** The dictionaries of the manager *)

Section Dict.

Variable V : Type.

Lemma getitem_setitem_same (d : dict V) k v :
  getitem (setitem d k v) k = Some v.
Proof.
  induction d as [|[k' v'] d IH]; cbn [setitem getitem].
  - now rewrite String.eqb_refl.
  - destruct (String.eqb k' k) eqn:E; cbn [getitem]; now rewrite E.
Qed.

Lemma getitem_setitem_other (d : dict V) k k' v :
  k' <> k -> getitem (setitem d k v) k' = getitem d k'.
Proof.
  intros Hne. induction d as [|[k0 v0] d IH]; cbn [setitem getitem].
  - destruct (String.eqb k k') eqn:E; [|reflexivity].
    apply String.eqb_eq in E. congruence.
  - destruct (String.eqb k0 k) eqn:E; cbn [getitem].
    + apply String.eqb_eq in E. subst k0.
      destruct (String.eqb k k') eqn:E'; [|reflexivity].
      apply String.eqb_eq in E'. congruence.
    + destruct (String.eqb k0 k'); [reflexivity|exact IH].
Qed.

Lemma setitem_new (d : dict V) k v :
  ~ In k (map fst d) -> setitem d k v = d ++ [(k, v)].
Proof.
  induction d as [|[k' v'] d IH]; intros Hnin; [reflexivity|].
  cbn [setitem map fst In app] in *.
  destruct (String.eqb k' k) eqn:E.
  - apply String.eqb_eq in E. tauto.
  - rewrite IH by tauto. reflexivity.
Qed.

Lemma setitem_keys_In (d : dict V) k v k' :
  In k' (map fst (setitem d k v)) <-> k' = k \/ In k' (map fst d).
Proof.
  induction d as [|[k0 v0] d IH]; cbn [setitem map fst In].
  - intuition.
  - destruct (String.eqb k0 k) eqn:E; cbn [map fst In].
    + apply String.eqb_eq in E. subst. intuition.
    + rewrite IH. intuition.
Qed.

Lemma setitem_keys_NoDup (d : dict V) k v :
  NoDup (map fst d) -> NoDup (map fst (setitem d k v)).
Proof.
  induction d as [|[k0 v0] d IH]; cbn [setitem map fst]; intros Hd.
  - repeat constructor. intros [].
  - inversion Hd as [|? ? Hnin Hd']; subst.
    destruct (String.eqb k0 k) eqn:E; cbn [map fst].
    + now constructor.
    + constructor; [|now apply IH].
      rewrite setitem_keys_In. intros [->|Hin]; [|contradiction].
      now rewrite String.eqb_refl in E.
Qed.

Lemma setitem_length (d : dict V) k v :
  (length (setitem d k v) <= S (length d))%nat.
Proof.
  induction d as [|[k0 v0] d IH]; cbn [setitem length]; [lia|].
  destruct (String.eqb k0 k); cbn [length]; lia.
Qed.

Variable A : Type.
Variable key : A -> string.
Variable val : A -> V.

Lemma fill_getitem_other (l : list A) : forall (d : dict V) k,
  (forall a, In a l -> key a <> k) ->
  getitem (fill key val l d) k = getitem d k.
Proof.
  unfold fill. induction l as [|a l IH]; intros d k H; [reflexivity|].
  cbn [fold_left]. rewrite IH by (intros; apply H; now right).
  apply getitem_setitem_other. intros ->. now apply (H a); [left|].
Qed.

Lemma fill_getitem_last (before after : list A) (a : A) (d : dict V) :
  (forall a', In a' after -> key a' <> key a) ->
  getitem (fill key val (before ++ a :: after) d) (key a) = Some (val a).
Proof.
  intros H. unfold fill. rewrite fold_left_app. cbn [fold_left].
  change (getitem
            (fill key val after
               (setitem (fold_left (fun d0 a0 => setitem d0 (key a0) (val a0))
                           before d) (key a) (val a))) (key a)
          = Some (val a)).
  rewrite fill_getitem_other by exact H.
  apply getitem_setitem_same.
Qed.

Lemma fill_keys_NoDup (l : list A) : forall d : dict V,
  NoDup (map fst d) -> NoDup (map fst (fill key val l d)).
Proof.
  unfold fill. induction l as [|a l IH]; intros d Hd; [exact Hd|].
  cbn [fold_left]. apply IH. now apply setitem_keys_NoDup.
Qed.

Lemma fill_length (l : list A) : forall d : dict V,
  (length (fill key val l d) <= length d + length l)%nat.
Proof.
  unfold fill. induction l as [|a l IH]; intros d; cbn [fold_left length];
    [lia|].
  pose proof (IH (setitem d (key a) (val a))).
  pose proof (setitem_length d (key a) (val a)). lia.
Qed.

Lemma fill_distinct (l : list A) : forall d : dict V,
  NoDup (map key l) ->
  (forall a, In a l -> ~ In (key a) (map fst d)) ->
  fill key val l d = d ++ map (fun a => (key a, val a)) l.
Proof.
  unfold fill.
  induction l as [|a l IH]; intros d Hnd Hnew; cbn [fold_left map].
  - now rewrite app_nil_r.
  - inversion Hnd as [|? ? Hnin Hnd']; subst.
    rewrite setitem_new by (apply Hnew; now left).
    rewrite IH; [now rewrite <- app_assoc|exact Hnd'|].
    intros a' Ha'. rewrite map_app, in_app_iff. cbn [map fst In].
    intros [Hin|[Heq|[]]].
    + now apply (Hnew a'); [right|].
    + apply Hnin. rewrite Heq. now apply in_map.
Qed.

End Dict.

Lemma getitem_In (V : Type) (d : dict V) k v :
  getitem d k = Some v -> In v (values d).
Proof.
  induction d as [|[k' v'] d IH]; [discriminate|]. cbn [getitem].
  unfold values. cbn [map snd In].
  destruct (String.eqb k' k); [intros [= ->]; now left|].
  intros H. right. now apply IH.
Qed.

(** X11.  The constructor keys the receivers by [ue_id] and the
    interfering transmitters by [site_id] in dictionaries: the keys are
    pairwise distinct, a record supplied later under an id already seen
    replaces the earlier one, so that the manager may hold fewer receivers
    than were supplied, and when the ids supplied are pairwise distinct
    the manager holds one object per record, in the order supplied.  The
    constructor raises only IndexError, when the transmitter list or the
    site-area list is empty. *)
Theorem constructor_dictionaries :
  forall (tx itxs : list SiteFeature) (ant_type : string)
         (rxs : list ReceiverFeature) (area : list AreaFeature)
         (sp : SimulationParameters),
    (tx = [] \/ area = [] ->
     SimulationManager_init tx itxs ant_type rxs area sp = Raise IndexError)
    /\ (tx <> [] -> area <> [] ->
        exists m,
          SimulationManager_init tx itxs ant_type rxs area sp = Ok m
          /\ NoDup (map fst (receivers m))
          /\ NoDup (map fst (interfering_transmitters m))
          /\ (length (values (receivers m)) <= length rxs)%nat
          /\ (length (values (interfering_transmitters m))
              <= length itxs)%nat
          /\ (forall before f after,
                 rxs = before ++ f :: after ->
                 (forall f', In f' after -> ue_id f' <> ue_id f) ->
                 getitem (receivers m) (ue_id f)
                 = Some (Receiver_init f sp))
          /\ (forall before f after,
                 itxs = before ++ f :: after ->
                 (forall f', In f' after -> site_id f' <> site_id f) ->
                 getitem (interfering_transmitters m) (site_id f)
                 = Some (InterferingTransmitter_init f ant_type sp))
          /\ (NoDup (map ue_id rxs) ->
              values (receivers m)
              = map (fun f => Receiver_init f sp) rxs)
          /\ (NoDup (map site_id itxs) ->
              values (interfering_transmitters m)
              = map (fun f => InterferingTransmitter_init f ant_type sp)
                  itxs)).
Proof.
  intros tx itxs ant_type rxs area sp. split.
  - intros [-> | ->]; [reflexivity|].
    unfold SimulationManager_init. destruct tx; reflexivity.
  - intros Htx Harea.
    destruct tx as [|t0 tx]; [congruence|].
    destruct area as [|a0 area]; [congruence|].
    eexists. split; [reflexivity|].
    cbn [receivers interfering_transmitters].
    split.
    { apply (@fill_keys_NoDup _ _ ue_id (fun f => Receiver_init f sp) rxs []).
      constructor. }
    split.
    { apply (@fill_keys_NoDup _ _ site_id
               (fun f => InterferingTransmitter_init f ant_type sp) itxs []).
      constructor. }
    split.
    { unfold values. rewrite length_map.
      apply (@fill_length _ _ ue_id (fun f => Receiver_init f sp) rxs []). }
    split.
    { unfold values. rewrite length_map.
      apply (@fill_length _ _ site_id
               (fun f => InterferingTransmitter_init f ant_type sp) itxs []). }
    split.
    { intros before f after -> H.
      apply (@fill_getitem_last _ _ ue_id (fun f => Receiver_init f sp)
               before after f [] H). }
    split.
    { intros before f after -> H.
      apply (@fill_getitem_last _ _ site_id
               (fun f => InterferingTransmitter_init f ant_type sp)
               before after f [] H). }
    split.
    { intros Hnd.
      pose proof (@fill_distinct _ _ ue_id (fun f => Receiver_init f sp) rxs
                    [] Hnd) as H.
      unfold fill in H. rewrite H by (intros ? ? []).
      cbn [app]. unfold values. rewrite map_map. reflexivity. }
    { intros Hnd.
      pose proof (@fill_distinct _ _ site_id
                    (fun f => InterferingTransmitter_init f ant_type sp)
                    itxs [] Hnd) as H.
      unfold fill in H. rewrite H by (intros ? ? []).
      cbn [app]. unfold values. rewrite map_map. reflexivity. }
Qed.

Lemma constructor_dictionaries_witness :
  exists m,
    SimulationManager_init [site_at 0 0 "serving"] [site_at 300 400 "east"]
      "micro" [ue_at 30 40 "id_0"; ue_at 50 60 "id_0"] [unit_area]
      PARAMETERS = Ok m
    /\ (length (values (receivers m)) <= 2)%nat
    /\ getitem (receivers m) "id_0"
       = Some (Receiver_init (ue_at 50 60 "id_0") PARAMETERS)
    /\ values (interfering_transmitters m)
       = [InterferingTransmitter_init (site_at 300 400 "east") "micro"
            PARAMETERS].
Proof.
  destruct (proj2 (constructor_dictionaries [site_at 0 0 "serving"]
                     [site_at 300 400 "east"] "micro"
                     [ue_at 30 40 "id_0"; ue_at 50 60 "id_0"] [unit_area]
                     PARAMETERS))
    as (m & Hm & _ & _ & Hlen & _ & Hlast & _ & _ & Hdistinct);
    [discriminate|discriminate|].
  exists m. split; [exact Hm|]. split; [exact Hlen|]. split.
  - apply (Hlast [ue_at 30 40 "id_0"] (ue_at 50 60 "id_0") []);
      [reflexivity|intros ? []].
  - apply Hdistinct. repeat constructor. intros [].
Defined.

(* ------------------------------------------------------------------ *)
(** ** [estimate_link_budget] as a whole *)

Section LinkBudget.

Variable path_loss_calculator : PathLossCall -> R * string.
Variable self : SimulationManager.
Variables (frequency bandwidth : R).
Variables (generation ant_type tranmission_type environment : string).
Variable lut : list MCS.
Variable sp : SimulationParameters.

Lemma link_budget_loop_Ok todo : forall acc results,
  link_budget_loop path_loss_calculator self todo frequency bandwidth
    generation ant_type tranmission_type environment lut sp acc
  = Ok results
  <-> exists new,
        results = acc ++ new
        /\ Forall2
             (fun r res =>
                link_budget_of path_loss_calculator self r frequency bandwidth
             generation ant_type tranmission_type environment lut sp
                = Ok res) todo new.
Proof.
  induction todo as [|r todo IH]; intros acc results; cbn [link_budget_loop].
  - split.
    + intros [= <-]. exists []. split; [now rewrite app_nil_r|constructor].
    + intros (new & -> & H). inversion H. now rewrite app_nil_r.
  - destruct (link_budget_of _ _ r _ _ _ _ _ _ _ _) as [res|e] eqn:E;
      cbn [bind].
    + rewrite IH. split.
      * intros (new & -> & H). exists (res :: new).
        split; [now rewrite <- app_assoc|now constructor].
      * intros (new & -> & H). inversion H as [|? res' ? new' Hr Hrest];
          subst. exists new'. split; [|exact Hrest].
        rewrite <- app_assoc. cbn [app]. congruence.
    + split; [discriminate|].
      intros (new & _ & H). inversion H; subst. congruence.
Qed.

Lemma link_budget_loop_Raise todo : forall acc e,
  link_budget_loop path_loss_calculator self todo frequency bandwidth
    generation ant_type tranmission_type environment lut sp acc
  = Raise e
  <-> exists done r rest,
        todo = done ++ r :: rest
        /\ Forall
             (fun r' =>
                exists res,
                  link_budget_of path_loss_calculator self r' frequency bandwidth
             generation ant_type tranmission_type environment lut sp
                  = Ok res) done
        /\ link_budget_of path_loss_calculator self r frequency bandwidth
             generation ant_type tranmission_type environment lut sp
           = Raise e.
Proof.
  induction todo as [|r todo IH]; intros acc e; cbn [link_budget_loop].
  - split; [discriminate|].
    intros (done & r & rest & H & _). now destruct done.
  - destruct (link_budget_of _ _ r _ _ _ _ _ _ _ _) as [res|e'] eqn:E;
      cbn [bind].
    + rewrite IH. split.
      * intros (done & r' & rest & -> & Hd & Hr).
        exists (r :: done), r', rest. split; [reflexivity|].
        split; [constructor; eauto|exact Hr].
      * intros (done & r' & rest & Heq & Hd & Hr).
        destruct done as [|d done]; cbn [app] in Heq;
          injection Heq as <- ->; [congruence|].
        inversion Hd; subst. exists done, r', rest. auto.
    + split.
      * intros [= <-]. exists [], r, todo. auto.
      * intros (done & r' & rest & Heq & Hd & Hr).
        destruct done as [|d done]; cbn [app] in Heq;
          injection Heq as <- ->; [congruence|].
        inversion Hd as [|? ? [res Hres] ?]; subst. congruence.
Qed.

End LinkBudget.

(** X12.  [estimate_link_budget] is all or nothing: it returns a list
    exactly when every receiver of the manager gets a result record, and
    the list then holds these records in the order of the receivers; it
    raises exactly when some receiver fails, with the error of the first
    one that does, and the records of the receivers before it are lost. *)
Theorem estimate_link_budget_all_or_nothing :
  forall (path_loss_calculator : PathLossCall -> R * string)
         (self : SimulationManager) (frequency bandwidth : R)
         (generation ant_type tranmission_type environment : string)
         (lut : list MCS) (sp : SimulationParameters),
    (forall results,
        estimate_link_budget path_loss_calculator self frequency bandwidth
          generation ant_type tranmission_type environment lut sp
        = Ok results
        <-> Forall2
              (fun r res =>
                 link_budget_of path_loss_calculator self r frequency
                   bandwidth generation ant_type tranmission_type
                   environment lut sp = Ok res)
              (values (receivers self)) results)
    /\ (forall e,
           estimate_link_budget path_loss_calculator self frequency
             bandwidth generation ant_type tranmission_type environment
             lut sp = Raise e
           <-> exists done r rest,
                 values (receivers self) = done ++ r :: rest
                 /\ Forall
                      (fun r' =>
                         exists res,
                           link_budget_of path_loss_calculator self r'
                             frequency bandwidth generation ant_type
                             tranmission_type environment lut sp = Ok res)
                      done
                 /\ link_budget_of path_loss_calculator self r frequency
                      bandwidth generation ant_type tranmission_type
                      environment lut sp = Raise e).
Proof.
  intros. unfold estimate_link_budget. split.
  - intros results. rewrite link_budget_loop_Ok. cbn [app]. split.
    + intros (new & -> & H). exact H.
    + intros H. eauto.
  - intros e. apply link_budget_loop_Raise.
Qed.

Lemma estimate_link_budget_all_or_nothing_witness :
  estimate_link_budget constant_path_loss
    (mkManager (Transmitter_init (site_at 0 0 "serving") "macro" PARAMETERS)
       [] [] (SiteArea_init unit_area))
    3.3 40 "5G" "macro" "8x8" "urban" MODULATION_AND_CODING_LUT PARAMETERS
  = Ok [].
Proof.
  apply (proj1 (estimate_link_budget_all_or_nothing constant_path_loss
                  (mkManager
                     (Transmitter_init (site_at 0 0 "serving") "macro"
                        PARAMETERS) [] [] (SiteArea_init unit_area))
                  3.3 40 "5G" "macro" "8x8" "urban"
                  MODULATION_AND_CODING_LUT PARAMETERS)).
  constructor.
Defined.

(** Inversion of one iteration: what a result record is made of. *)
Lemma link_budget_of_Ok path_loss_calculator self receiver frequency
    bandwidth generation ant_type tranmission_type environment lut sp res :
  link_budget_of path_loss_calculator self receiver frequency bandwidth
    generation ant_type tranmission_type environment lut sp = Ok res ->
  exists call received_power interference i_model ave_distance ave_inf_pl
         capacity_mbps capacity_mbps_km2,
    path_loss_call self receiver frequency environment sp = Ok call
    /\ estimate_received_power self (transmitter self) receiver
         (fst (path_loss_calculator call)) = Ok received_power
    /\ estimate_interference path_loss_calculator self receiver frequency
         environment sp
       = Ok (interference, i_model, ave_distance, ave_inf_pl)
    /\ estimate_spectral_efficiency
         (snd (estimate_sinr received_power interference
                 (estimate_noise bandwidth) sp)) generation lut
       = Ok (Some (res_spectral_efficiency res))
    /\ estimate_average_capacity self bandwidth
         (Some (res_spectral_efficiency res))
       = Ok (capacity_mbps, capacity_mbps_km2)
    /\ res
       = mkLinkBudget (rx_id receiver) (fst (path_loss_calculator call))
           (snd (path_loss_calculator call)) (arg_type_of_sight call)
           ave_inf_pl received_power (arg_distance call)
           (log10 (snd (fst (fst (fst
              (estimate_sinr received_power interference
                 (estimate_noise bandwidth) sp))))))
           i_model (network_load sp) ave_distance (estimate_noise bandwidth)
           (log10 (snd (fst
              (estimate_sinr received_power interference
                 (estimate_noise bandwidth) sp))))
           tranmission_type
           (snd (estimate_sinr received_power interference
                   (estimate_noise bandwidth) sp))
           (res_spectral_efficiency res) capacity_mbps capacity_mbps_km2
           (fst (rx_coordinates receiver)) (snd (rx_coordinates receiver)).
Proof.
  unfold link_budget_of, estimate_path_loss. intros H.
  apply bind_Ok in H as ([[[pl model] dist] sight] & Hpl & H).
  apply bind_Ok in Hpl as (call & Hcall & Hpl).
  destruct (path_loss_calculator call) as [pl0 model0] eqn:Hcalc.
  injection Hpl as <- <- <- <-.
  apply bind_Ok in H as (rp & Hrp & H).
  apply bind_Ok in H as ([[[intf i_model] ave_d] ave_pl] & Hint & H).
  rewrite estimate_sinr_unfold in H. cbn zeta in H.
  apply bind_Ok in H as (se & Hse & H).
  apply bind_Ok in H as ([c ckm2] & Hcap & H).
  destruct se as [se|]; [|discriminate].
  injection H as <-. cbn [res_spectral_efficiency].
  exists call, rp, intf, i_model, ave_d, ave_pl, c, ckm2.
  rewrite Hcalc. cbn [fst snd]. rewrite estimate_sinr_unfold. cbn zeta.
  cbn [fst snd]. auto 10.
Qed.

(** X13.  What a result record holds: the id and the coordinates of its
    receiver; a serving distance of 20 at least and a sight that is "los"
    or "nlos"; the noise of the bandwidth; the network load and the
    transmission type passed in; a received power that is the EIRP of the
    serving transmitter less the path loss and the receiver's losses,
    plus its gain; the spectral efficiency the table gives for the SINR
    of the record; a capacity equal to bandwidth times spectral
    efficiency; and an areal capacity that gives the capacity back when
    multiplied by the site area in km2, which is not 0. *)
Theorem link_budget_record :
  forall (path_loss_calculator : PathLossCall -> R * string)
         (self : SimulationManager) (receiver : Receiver)
         (frequency bandwidth : R)
         (generation ant_type tranmission_type environment : string)
         (lut : list MCS) (sp : SimulationParameters) (res : LinkBudget),
    link_budget_of path_loss_calculator self receiver frequency bandwidth
      generation ant_type tranmission_type environment lut sp = Ok res ->
    res_id res = rx_id receiver
    /\ (res_receiver_x res, res_receiver_y res) = rx_coordinates receiver
    /\ 20 <= res_distance res
    /\ (res_type_of_sight res = "los" \/ res_type_of_sight res = "nlos")
    /\ res_noise res = estimate_noise bandwidth
    /\ res_network_load res = network_load sp
    /\ res_tranmission_type res = tranmission_type
    /\ received_power_of (transmitter self) receiver (res_path_loss res)
       = Some (res_received_power res)
    /\ estimate_spectral_efficiency (res_sinr res) generation lut
       = Ok (Some (res_spectral_efficiency res))
    /\ res_capacity_mbps res
       = bandwidth * Q2R (res_spectral_efficiency res)
    /\ sa_area (site_area self) <> 0
    /\ res_capacity_mbps_km2 res * (sa_area (site_area self) / 1e6)
       = res_capacity_mbps res.
Proof.
  intros calc self receiver frequency bandwidth generation ant_type
    tranmission_type environment lut sp res H.
  apply link_budget_of_Ok in H
    as (call & rp & intf & i_model & ave_d & ave_pl & c & ckm2
        & Hcall & Hrp & Hint & Hse & Hcap & Hres).
  rewrite Hres in *.
  cbn [res_id res_receiver_x res_receiver_y res_distance res_type_of_sight
       res_noise res_network_load res_tranmission_type res_path_loss
       res_received_power res_sinr res_spectral_efficiency
       res_capacity_mbps res_capacity_mbps_km2] in *.
  split; [reflexivity|]. split; [now destruct (rx_coordinates receiver)|].
  split; [eapply path_loss_call_distance; eauto|].
  split.
  { unfold path_loss_call in Hcall.
    apply bind_Ok in Hcall as (h & _ & Hcall). injection Hcall as <-.
    cbn [arg_type_of_sight].
    match goal with
    | |- context [if ?c then "los" else "nlos"] => destruct c
    end; auto. }
  split; [reflexivity|]. split; [reflexivity|]. split; [reflexivity|].
  split.
  { rewrite estimate_received_power_serving in Hrp.
    destruct (received_power_of _ _ _); [now injection Hrp as ->|discriminate]. }
  split; [exact Hse|].
  unfold estimate_average_capacity, truediv in Hcap.
  destruct (Req_dec_T _ 0) as [|Hnz]; [discriminate|].
  cbn [bind] in Hcap. injection Hcap as <- <-.
  split; [field|].
  split; [intros Hz; apply Hnz; rewrite Hz; lra|].
  field. intros Hz. apply Hnz. rewrite Hz. lra.
Qed.

(** The shipped configuration: macro or micro cells, at least one
    interferer, a site area that is not 0, the shipped table and one of
    its generations.  No attribute is missing, no division is by 0 and
    the lookup finds a row; the powers and logarithms of the SINR stage
    are those of real numbers here and cannot fail. *)
Lemma link_budget_of_total path_loss_calculator self receiver frequency
    bandwidth generation ant_type tranmission_type environment sp :
  tx_ant_height (transmitter self) <> None ->
  received_power_of (transmitter self) receiver 0 <> None ->
  Forall (fun t => tx_ant_height t <> None)
    (values (interfering_transmitters self)) ->
  values (interfering_transmitters self) <> [] ->
  sa_area (site_area self) <> 0 ->
  In generation (map generation_tag MODULATION_AND_CODING_LUT) ->
  exists res,
    link_budget_of path_loss_calculator self receiver frequency bandwidth
      generation ant_type tranmission_type environment
      MODULATION_AND_CODING_LUT sp = Ok res.
Proof.
  intros Hh Hrp Hall Hne Harea Hg.
  unfold link_budget_of, estimate_path_loss, path_loss_call.
  destruct (tx_ant_height (transmitter self)) as [h|]; [|congruence].
  cbn [attr bind].
  match goal with
  | |- context [path_loss_calculator ?c] =>
      destruct (path_loss_calculator c) as [path_loss model]
  end.
  cbn [bind]. rewrite estimate_received_power_serving.
  destruct (@estimate_interference_total path_loss_calculator self receiver
              frequency environment sp Hrp Hall Hne)
    as ([[[intf i_model] d] pl] & ->).
  unfold received_power_of in *.
  destruct (eirp_of (transmitter self)) as [eirp|]; [|congruence].
  cbn [bind].
  destruct (estimate_sinr _ intf _ sp) as [[[[f_rp f_i] f_n] ipn] sinr].
  rewrite (shipped_lookup sinr Hg). cbn [bind].
  unfold estimate_average_capacity, truediv.
  destruct (Req_dec_T _ 0) as [Hz|_].
  - exfalso. apply Harea. lra.
  - cbn [bind]. eauto.
Qed.

Lemma link_budget_record_witness :
  exists res,
    link_budget_of constant_path_loss
      (mkManager
         (Transmitter_init (site_at 0 0 "serving") "micro" PARAMETERS)
         [("east",
           InterferingTransmitter_init (site_at 300 400 "east") "micro"
             PARAMETERS)]
         [] (SiteArea_init unit_area))
      (Receiver_init (ue_at 30 40 "id_0") PARAMETERS) 3.3 40 "5G" "micro"
      "8x8" "urban" MODULATION_AND_CODING_LUT PARAMETERS = Ok res
    /\ res_id res = "id_0"
    /\ 20 <= res_distance res
    /\ res_capacity_mbps res = 40 * Q2R (res_spectral_efficiency res).
Proof.
  destruct (@link_budget_of_total constant_path_loss
              (mkManager
                 (Transmitter_init (site_at 0 0 "serving") "micro"
                    PARAMETERS)
                 [("east",
                   InterferingTransmitter_init (site_at 300 400 "east")
                     "micro" PARAMETERS)]
                 [] (SiteArea_init unit_area))
              (Receiver_init (ue_at 30 40 "id_0") PARAMETERS) 3.3 40 "5G"
              "micro" "8x8" "urban" PARAMETERS) as [res Hres].
  - discriminate.
  - discriminate.
  - repeat constructor. discriminate.
  - discriminate.
  - cbn. lra.
  - cbn. auto 20.
  - exists res. split; [exact Hres|].
    destruct (link_budget_record _ _ _ _ _ _ _ _ _ _ _ Hres)
      as (Hid & _ & Hd & _ & _ & _ & _ & _ & _ & Hcap & _).
    split; [exact Hid|]. split; [exact Hd|exact Hcap].
Defined.

Lemma Forall2_map_eq (A B C : Type) (P : A -> B -> Prop) (f : A -> C)
    (g : B -> C) (l : list A) (l' : list B) :
  (forall a b, P a b -> g b = f a) ->
  Forall2 P l l' -> map g l' = map f l.
Proof.
  intros H. induction 1 as [|a b l l' Hab _ IH]; [reflexivity|].
  cbn [map]. now rewrite IH, (H _ _ Hab).
Qed.

(** X15.  An antenna type other than "macro" and "micro" is accepted by
    the constructor and leaves the serving transmitter and every
    interfering transmitter without height, power, gain and losses; with
    at least one receiver supplied, [estimate_link_budget] then raises
    AttributeError, at the first stage of the first receiver. *)
Theorem unsupported_antenna_type :
  forall (path_loss_calculator : PathLossCall -> R * string)
         (tx itxs : list SiteFeature) (ant_type : string)
         (rxs : list ReceiverFeature) (area : list AreaFeature)
         (sp : SimulationParameters) (m : SimulationManager)
         (frequency bandwidth : R)
         (generation ant_type' tranmission_type environment : string)
         (lut : list MCS) (sp' : SimulationParameters),
    SimulationManager_init tx itxs ant_type rxs area sp = Ok m ->
    ant_type <> "macro" -> ant_type <> "micro" ->
    (tx_ant_height (transmitter m) = None
     /\ tx_power (transmitter m) = None
     /\ tx_gain (transmitter m) = None
     /\ tx_losses (transmitter m) = None)
    /\ Forall
         (fun t =>
            tx_ant_height t = None /\ tx_power t = None
            /\ tx_gain t = None /\ tx_losses t = None)
         (values (interfering_transmitters m))
    /\ (forall receiver,
           estimate_path_loss path_loss_calculator m receiver frequency
             environment sp' = Raise AttributeError)
    /\ (rxs <> [] ->
        estimate_link_budget path_loss_calculator m frequency bandwidth
          generation ant_type' tranmission_type environment lut sp'
        = Raise AttributeError).
Proof.
  intros calc tx itxs ant_type rxs area sp m frequency bandwidth generation
    ant_type' tranmission_type environment lut sp' Hinit Hma Hmi.
  unfold SimulationManager_init in Hinit.
  apply bind_Ok in Hinit as (t0 & _ & Hinit).
  apply bind_Ok in Hinit as (a0 & _ & Hinit).
  injection Hinit as <-. cbn [transmitter interfering_transmitters].
  assert (Hnone : forall data,
             let t := Transmitter_init data ant_type sp in
             tx_ant_height t = None /\ tx_power t = None
             /\ tx_gain t = None /\ tx_losses t = None).
  { intros data. cbn zeta. rewrite Transmitter_init_unset by assumption.
    cbn. auto. }
  split; [apply Hnone|].
  split.
  { apply (@fold_setitem_Forall _ _
             (fun t => tx_ant_height t = None /\ tx_power t = None
                       /\ tx_gain t = None /\ tx_losses t = None)
             site_id (fun f => InterferingTransmitter_init f ant_type sp)).
    - intros f.
      change (InterferingTransmitter_init f ant_type sp)
        with (Transmitter_init f ant_type sp).
      apply Hnone.
    - constructor. }
  split.
  - intros receiver. apply estimate_path_loss_no_height.
    cbn [transmitter]. apply Hnone.
  - intros Hrxs. apply no_height_raises.
    + cbn [transmitter]. apply Hnone.
    + cbn [receivers]. unfold values. intros Hnil.
      apply map_eq_nil in Hnil. revert Hnil.
      apply fold_setitem_not_empty. now left.
Qed.

Lemma unsupported_antenna_type_witness :
  exists m,
    SimulationManager_init [site_at 0 0 "serving"] [site_at 300 400 "east"]
      "pico" [ue_at 30 40 "id_0"] [unit_area] PARAMETERS = Ok m
    /\ tx_ant_height (transmitter m) = None
    /\ estimate_link_budget constant_path_loss m 3.3 40 "5G" "pico" "8x8"
         "urban" MODULATION_AND_CODING_LUT PARAMETERS
       = Raise AttributeError.
Proof.
  eexists. split; [reflexivity|].
  destruct (@unsupported_antenna_type constant_path_loss
              [site_at 0 0 "serving"] [site_at 300 400 "east"] "pico"
              [ue_at 30 40 "id_0"] [unit_area] PARAMETERS _ 3.3 40 "5G"
              "pico" "8x8" "urban" MODULATION_AND_CODING_LUT PARAMETERS
              eq_refl) as ((Hh & _) & _ & _ & Hraise); [discriminate..|].
  split; [exact Hh|]. apply Hraise. discriminate.
Defined.

(** X16.  [receiver_density] never returns a density: it returns 0 for a
    manager without receivers and raises AttributeError for any other,
    because it reads [self.area], an attribute no manager has (the
    constructor assigns [site_area]). *)
Theorem receiver_density_never_computed :
  forall (tx itxs : list SiteFeature) (ant_type : string)
         (rxs : list ReceiverFeature) (area : list AreaFeature)
         (sp : SimulationParameters) (m : SimulationManager),
    SimulationManager_init tx itxs ant_type rxs area sp = Ok m ->
    (rxs = [] -> receiver_density m = Ok 0)
    /\ (rxs <> [] -> receiver_density m = Raise AttributeError).
Proof.
  intros tx itxs ant_type rxs area sp m Hinit.
  unfold SimulationManager_init in Hinit.
  apply bind_Ok in Hinit as (t0 & _ & Hinit).
  apply bind_Ok in Hinit as (a0 & _ & Hinit).
  injection Hinit as <-. unfold receiver_density. cbn [receivers].
  split.
  - intros ->. reflexivity.
  - intros Hne.
    match goal with
    | |- match ?d with [] => _ | _ :: _ => _ end = _ =>
        destruct d as [|kv d'] eqn:E; [|reflexivity]
    end.
    exfalso. revert E. apply fold_setitem_not_empty. now left.
Qed.

Lemma receiver_density_never_computed_witness :
  exists m,
    SimulationManager_init [site_at 0 0 "serving"] [site_at 300 400 "east"]
      "micro" [ue_at 30 40 "id_0"] [unit_area] PARAMETERS = Ok m
    /\ receiver_density m = Raise AttributeError.
Proof.
  eexists. split; [reflexivity|].
  apply (proj2 (@receiver_density_never_computed
                  [site_at 0 0 "serving"] [site_at 300 400 "east"] "micro"
                  [ue_at 30 40 "id_0"] [unit_area] PARAMETERS _ eq_refl)).
  discriminate.
Defined.

(* ------------------------------------------------------------------ *)
(** ** The runner *)

Lemma fold_left_snoc_map (A B : Type) (f : A -> B) (l : list A)
    (acc : list B) :
  fold_left (fun acc a => acc ++ [f a]) l acc = acc ++ map f l.
Proof.
  revert acc. induction l as [|x l IH]; intros acc; cbn [fold_left map].
  - now rewrite app_nil_r.
  - rewrite IH, <- app_assoc. reflexivity.
Qed.

(** X17.  The features [convert_results_geojson] makes of the results of
    [estimate_link_budget] are one per receiver of the manager, in order,
    each at the coordinates of its receiver. *)
Theorem geojson_at_receivers :
  forall (path_loss_calculator : PathLossCall -> R * string)
         (self : SimulationManager) (frequency bandwidth : R)
         (generation ant_type tranmission_type environment : string)
         (lut : list MCS) (sp : SimulationParameters)
         (results : list LinkBudget),
    estimate_link_budget path_loss_calculator self frequency bandwidth
      generation ant_type tranmission_type environment lut sp = Ok results ->
    map rf_coordinates (convert_results_geojson results)
    = map rx_coordinates (values (receivers self)).
Proof.
  intros calc self frequency bandwidth generation ant_type tranmission_type
    environment lut sp results H.
  unfold estimate_link_budget in H. apply link_budget_loop_Ok in H
    as (new & -> & H). cbn [app].
  unfold convert_results_geojson.
  rewrite (fold_left_snoc_map
             (fun datum =>
                mkResultFeature (res_receiver_x datum, res_receiver_y datum)
                  (res_path_loss datum) (res_received_power datum)
                  (res_interference datum) (res_noise datum)
                  (Q2R (res_sinr datum))
                  (Q2R (res_spectral_efficiency datum))
                  (res_capacity_mbps datum) (res_capacity_mbps_km2 datum))).
  cbn [app]. rewrite map_map. cbn [rf_coordinates].
  eapply Forall2_map_eq; [|exact H].
  intros r res Hres. apply link_budget_of_Ok in Hres
    as (? & ? & ? & ? & ? & ? & ? & ? & _ & _ & _ & _ & _ & ->).
  cbn [res_receiver_x res_receiver_y]. now destruct (rx_coordinates r).
Qed.

Lemma geojson_at_receivers_witness :
  exists res,
    map rf_coordinates (convert_results_geojson [res])
    = [rx_coordinates (Receiver_init (ue_at 30 40 "id_0") PARAMETERS)].
Proof.
  pose (m := mkManager
               (Transmitter_init (site_at 0 0 "serving") "micro" PARAMETERS)
               [("east",
                 InterferingTransmitter_init (site_at 300 400 "east")
                   "micro" PARAMETERS)]
               [("id_0", Receiver_init (ue_at 30 40 "id_0") PARAMETERS)]
               (SiteArea_init unit_area)).
  destruct (@link_budget_of_total constant_path_loss m
              (Receiver_init (ue_at 30 40 "id_0") PARAMETERS) 3.3 40 "5G"
              "micro" "8x8" "urban" PARAMETERS) as [res Hres].
  - discriminate.
  - discriminate.
  - repeat constructor. discriminate.
  - discriminate.
  - cbn. lra.
  - cbn. auto 20.
  - exists res.
    apply (@geojson_at_receivers constant_path_loss m 3.3 40 "5G" "micro"
             "8x8" "urban" MODULATION_AND_CODING_LUT PARAMETERS [res]).
    unfold estimate_link_budget. cbn [receivers m values map snd
                                      link_budget_loop].
    rewrite Hres. reflexivity.
Defined.

Lemma site_density_defined (site_radius : Z) :
  sqrt 3 / 2 * (IZR (site_radius * 2) * IZR (site_radius * 2)) / 1e6 = 0
  <-> site_radius = 0%Z.
Proof.
  assert (H3 : 0 < sqrt 3) by (apply sqrt_lt_R0; lra).
  split.
  - intros H.
    assert (Hsq : IZR (site_radius * 2) * IZR (site_radius * 2) = 0).
    { assert (Hpos : 0 < sqrt 3 / 2 / 1e6)
        by (apply Rdiv_lt_0_compat; [apply Rdiv_lt_0_compat|]; lra).
      apply (Rmult_eq_reg_l (sqrt 3 / 2 / 1e6)); [|lra].
      rewrite Rmult_0_r, <- H. field. }
    apply Rmult_integral in Hsq.
    assert (Hz : IZR (site_radius * 2) = 0) by tauto.
    apply eq_IZR in Hz. lia.
  - intros ->. cbn [Z.mul]. lra.
Qed.

Section WriterProperties.

Variable os_path_join : string -> string -> string.

(** X18.  [write_frequency_lookup_table] keeps the lookup table in good
    order: for a site radius other than 0, a file that did not exist or
    held the header once followed by data rows holds, after the call, the
    header once followed by the rows it had and one more row for each
    result; no other file changes.  A site radius of 0 raises
    ZeroDivisionError before the file is opened. *)
Theorem lookup_table_header_once :
  forall (fs : filesystem) (results : list PercentileResult)
         (environment : string) (site_radius : Z) (frequency bandwidth : R)
         (generation ant_type tranmission_type directory filename : string)
         (parameters : OutputParameters),
    let path := os_path_join directory filename in
    (site_radius = 0%Z ->
     write_frequency_lookup_table os_path_join fs results environment
       site_radius frequency bandwidth generation ant_type tranmission_type
       directory filename parameters = Raise ZeroDivisionError)
    /\ (site_radius <> 0%Z ->
        (forall content, getitem fs path = Some content ->
                         one_header content) ->
        exists fs' rows,
          write_frequency_lookup_table os_path_join fs results environment
            site_radius frequency bandwidth generation ant_type
            tranmission_type directory filename parameters = Ok fs'
          /\ length rows = length results
          /\ getitem fs' path
             = Some (match getitem fs path with
                     | None => [lookup_table_header]
                     | Some content => content
                     end ++ rows)
          /\ (forall content, getitem fs' path = Some content ->
                              one_header content)
          /\ same_elsewhere path fs fs').
Proof.
  intros fs results environment site_radius frequency bandwidth generation
    ant_type tranmission_type directory filename parameters path.
  unfold write_frequency_lookup_table, truediv. fold path.
  split.
  - intros Hz. apply site_density_defined in Hz.
    destruct (Req_dec_T _ 0) as [_|Hn]; [reflexivity|contradiction].
  - intros Hnz Hgood.
    destruct (Req_dec_T _ 0) as [Hz|_];
      [apply site_density_defined in Hz; contradiction|].
    cbn [bind]. rewrite fold_left_snoc_map.
    eexists. eexists. split; [reflexivity|].
    split; [apply length_map|].
    split; [apply getitem_setitem_same|].
    split.
    + intros content. rewrite getitem_setitem_same. intros [= <-].
      destruct (getitem fs path) as [old|] eqn:E.
      * destruct (Hgood old eq_refl) as (rows & -> & Hnin).
        eexists. split; [reflexivity|].
        intros Hin. apply in_app_or in Hin as [Hin|Hin]; [contradiction|].
        apply in_map_iff in Hin as (r & Hr & _). discriminate Hr.
      * eexists. split; [reflexivity|].
        intros Hin. apply in_map_iff in Hin as (r & Hr & _).
        discriminate Hr.
    + intros p Hp. now apply getitem_setitem_other.
Qed.

(** X19.  [write_full_results] replaces the file: for a site radius
    other than 0 the file holds, after the call, the header and one row
    for each result record, whatever it held before, and no other file
    changes.  A site radius of 0 raises ZeroDivisionError before the file
    is opened. *)
Theorem full_results_overwritten :
  forall (fs : filesystem) (data : list LinkBudget) (environment : string)
         (site_radius : Z) (frequency bandwidth : R)
         (generation ant_type transmittion_type directory filename : string)
         (parameters : OutputParameters),
    let path := os_path_join directory filename in
    (site_radius = 0%Z ->
     write_full_results os_path_join fs data environment site_radius
       frequency bandwidth generation ant_type transmittion_type directory
       filename parameters = Raise ZeroDivisionError)
    /\ (site_radius <> 0%Z ->
        exists fs' rows,
          write_full_results os_path_join fs data environment site_radius
            frequency bandwidth generation ant_type transmittion_type
            directory filename parameters = Ok fs'
          /\ getitem fs' path = Some (full_results_header :: rows)
          /\ length rows = length data
          /\ Forall (fun r => length r = length full_results_header) rows
          /\ same_elsewhere path fs fs').
Proof.
  intros fs data environment site_radius frequency bandwidth generation
    ant_type transmittion_type directory filename parameters path.
  unfold write_full_results, truediv. fold path.
  split.
  - intros Hz. apply site_density_defined in Hz.
    destruct (Req_dec_T _ 0) as [_|Hn]; [reflexivity|contradiction].
  - intros Hnz.
    destruct (Req_dec_T _ 0) as [Hz|_];
      [apply site_density_defined in Hz; contradiction|].
    cbn [bind]. rewrite fold_left_snoc_map. cbn [app].
    eexists. eexists. split; [reflexivity|].
    split; [apply getitem_setitem_same|].
    split; [apply length_map|].
    split.
    + apply Forall_forall. intros r Hr.
      apply in_map_iff in Hr as (d & <- & _). reflexivity.
    + intros p Hp. now apply getitem_setitem_other.
Qed.

End WriterProperties.

Lemma lookup_table_header_once_witness :
  exists fs' rows,
    write_frequency_lookup_table posix_join
      [(posix_join "results" "capacity_lut_by_frequency.csv",
        [lookup_table_header])]
      [mkPercentileResult 50 "8x8" 120 (-80) (-95) 12 19 760 3040]
      "urban" 250 3.3 40 "5G" "micro" "8x8" "results"
      "capacity_lut_by_frequency.csv" (mkOutputParameters 3) = Ok fs'
    /\ length rows = 1%nat
    /\ getitem fs' (posix_join "results" "capacity_lut_by_frequency.csv")
       = Some ([lookup_table_header] ++ rows).
Proof.
  destruct (proj2 (@lookup_table_header_once posix_join
                     [(posix_join "results" "capacity_lut_by_frequency.csv",
                       [lookup_table_header])]
                     [mkPercentileResult 50 "8x8" 120 (-80) (-95) 12 19 760
                        3040]
                     "urban" 250 3.3 40 "5G" "micro" "8x8" "results"
                     "capacity_lut_by_frequency.csv" (mkOutputParameters 3)))
    as (fs' & rows & Hw & Hlen & Hget & _).
  - discriminate.
  - intros content. vm_compute. intros [= <-].
    exists []. split; [reflexivity|]. intros [].
  - exists fs', rows. auto.
Defined.

Lemma full_results_overwritten_witness :
  exists fs' rows,
    write_full_results posix_join
      [(posix_join "full_tables" "full.csv", [[Text "stale"]])] []
      "urban" 250 3.3 40 "5G" "micro" "8x8" "full_tables" "full.csv"
      (mkOutputParameters 3) = Ok fs'
    /\ getitem fs' (posix_join "full_tables" "full.csv")
       = Some (full_results_header :: rows)
    /\ length rows = 0%nat.
Proof.
  destruct (proj2 (@full_results_overwritten posix_join
                     [(posix_join "full_tables" "full.csv",
                       [[Text "stale"]])] []
                     "urban" 250 3.3 40 "5G" "micro" "8x8" "full_tables"
                     "full.csv" (mkOutputParameters 3)))
    as (fs' & rows & Hw & Hget & Hlen & _).
  - discriminate.
  - exists fs', rows. auto.
Defined.

Close Scope R_scope.
Open Scope Z_scope.

Lemma range_length_bound (start stop step k : Z) :
  0 < step -> 0 <= k ->
  (k < range_length start stop step <-> start + k * step < stop).
Proof.
  intros Hs Hk. unfold range_length.
  destruct (Z.ltb_spec 0 step) as [_|]; [|lia].
  destruct (Z.ltb_spec start stop) as [Hlt|Hge].
  - pose proof (Z.div_mod (stop - start - 1) step ltac:(lia)) as Hdm.
    pose proof (Z.mod_pos_bound (stop - start - 1) step Hs) as Hmod.
    split; intros H; nia.
  - split; intros H; nia.
Qed.

Lemma In_range_members (start step : Z) (n : nat) (r : Z) :
  In r (map (fun k => start + Z.of_nat k * step) (seq 0 n))
  <-> exists k, 0 <= k < Z.of_nat n /\ r = start + k * step.
Proof.
  rewrite in_map_iff. split.
  - intros (k & <- & Hk). apply in_seq in Hk.
    exists (Z.of_nat k). split; [lia|reflexivity].
  - intros (k & Hk & ->). exists (Z.to_nat k).
    rewrite Z2Nat.id by lia. split; [reflexivity|].
    apply in_seq. lia.
Qed.

Lemma range_members_sorted (start step : Z) (n first : nat) :
  0 < step ->
  StronglySorted Z.lt
    (map (fun k => start + Z.of_nat k * step) (seq first n)).
Proof.
  intros Hs. revert first. induction n as [|n IH]; intros first; cbn.
  - constructor.
  - constructor; [apply IH|].
    apply Forall_forall. intros r Hr.
    apply in_map_iff in Hr as (k & <- & Hk). apply in_seq in Hk. nia.
Qed.

(** X20.  The site radii that [generate_site_radii] yields: for a
    positive increment they are, in strictly increasing order, exactly
    the integers [min + k * increment] with [k >= 0] that are below
    [max] (never [max] itself); so a positive [min] yields no radius 0.
    An increment of 0 yields nothing: [range] raises ValueError. *)
Theorem site_radii_generated :
  forall min max increment : Z,
    (increment = 0 -> generate_site_radii min max increment = None)
    /\ (0 < increment ->
        exists radii,
          generate_site_radii min max increment = Some radii
          /\ (forall r, In r radii <->
                        min <= r < max /\ (increment | r - min))
          /\ StronglySorted Z.lt radii
          /\ (0 < min -> ~ In 0 radii)).
Proof.
  intros min max increment. unfold generate_site_radii, range. split.
  - intros ->. reflexivity.
  - intros Hpos.
    destruct (Z.eqb_spec increment 0) as [|_]; [lia|].
    eexists. split; [reflexivity|].
    assert (Hmem : forall r,
               In r (map (fun k => min + Z.of_nat k * increment)
                       (seq 0 (Z.to_nat (range_length min max increment))))
               <-> min <= r < max /\ (increment | r - min)).
    { intros r. rewrite In_range_members. split.
      - intros (k & Hk & ->).
        assert (Hlt : k < range_length min max increment) by lia.
        apply range_length_bound in Hlt; [|lia|lia].
        split; [nia|]. exists k. lia.
      - intros (Hr & (k & Hk)).
        assert (H0 : 0 <= k) by nia.
        exists k. split; [|lia].
        assert (Hlt : k < range_length min max increment)
          by (apply range_length_bound; lia).
        lia. }
    split; [exact Hmem|].
    split; [now apply range_members_sorted|].
    intros Hmin H0. apply Hmem in H0. lia.
Qed.

Lemma site_radii_generated_witness :
  exists radii,
    (let '(min, max, increment) := INCREMENT_MI in
     generate_site_radii min max increment) = Some radii
    /\ (In 490 radii /\ ~ In 540 radii)
    /\ ~ In 0 radii.
Proof.
  destruct (proj2 (site_radii_generated 40 540 50) ltac:(lia))
    as (radii & Hgen & Hmem & _ & Hzero).
  exists radii. split; [exact Hgen|]. split.
  - split.
    + apply Hmem. split; [lia|]. exists 9. reflexivity.
    + intros H. apply Hmem in H. lia.
  - apply Hzero. lia.
Defined.

Close Scope Z_scope.
Open Scope R_scope.
